(** * Wallet session handling of depub.space: a shallow embedding

    The development follows the [WalletProvider] component of
    [packages/depub.space] (the [useWallet] hook: [disconnect], [initKepr],
    [initWalletConnect], [setupAccount], [connectWalletConnect],
    [connectKeplr], [suggestChain] and the relayed signer's [signDirect]),
    then two users of what it provides: the colour mode manager, which
    shares its store, and the channel screen, which reads its state.

    - React state ([walletAddress], [offlineSigner], [connector],
      [isLoading], [error]) is a record; every [setX] call is a field update.
      States are looked at when an operation has ended, not between two
      [setX] calls of one operation.
    - [AsyncStorage] is a finite map from keys to strings.  A storage call
      takes effect when it is issued, so calls take effect in the order in
      which the code issues them, awaited or not.
    - [WalletConnect] client objects are mutable: they live in a heap
      ([conns]) and the React state holds a reference to one of them.
    - Asynchronous functions are run to completion one after the other; a
      rejected promise is a thrown exception, carried by an error monad the
      way [try]/[catch] sees it.
    - What the outside world answers (the injected Keplr provider, the
      WalletConnect client library and its relay peer) is not code of this
      repository: it is an input of each operation ([Env]), and every call
      that leaves the component is appended to a [trace].
    - The WalletConnect client keeps the record of its session in the same
      store, under the key [KEY_WALLET_CONNECT] the component reads and
      removes: the library writes it when a pairing is approved and removes
      it when [killSession] resolves.  A kill ends the session: the killed
      object and the client object built after the kill report no session.
      What the client built first reports is an input. *)

From Stdlib Require Import ZArith.
From stdpp Require Import base strings list gmap fin_maps.

(** ** Constants of the module *)

Definition KEY_WALLET_CONNECT_ACCOUNT_PREFIX : string := "KEY_WALLET_CONNECT_ACCOUNT_PREFIX".
Definition KEY_WALLET_CONNECT : string := "walletconnect".
Definition KEY_CONNECTED_WALLET_TYPE : string := "KEY_CONNECTED_WALLET_TYPE".

(** The template literal
    [`${KEY_WALLET_CONNECT_ACCOUNT_PREFIX}_${newConnector.peerId}`]. *)
Definition account_key (peerId : string) : string :=
  KEY_WALLET_CONNECT_ACCOUNT_PREFIX +:+ "_" +:+ peerId.

(** [new RegExp(`^${KEY_WALLET_CONNECT_ACCOUNT_PREFIX}`).test(key)]: the
    pattern has no metacharacter, so the test is a prefix test. *)
Definition is_account_key (key : string) : bool :=
  String.prefix KEY_WALLET_CONNECT_ACCOUNT_PREFIX key.

(** JavaScript truthiness of a [string | null | undefined] value. *)
Definition truthy (v : option string) : bool :=
  match v with
  | Some s => negb (String.eqb s "")
  | None => false
  end.

(** [/testnet/.test(s)] *)
Fixpoint contains_testnet (s : string) : bool :=
  String.prefix "testnet" s ||
  match s with
  | EmptyString => false
  | String _ rest => contains_testnet rest
  end.

(** ** Data *)

(** The [account] value of [initWalletConnect] once it is known to be truthy:
    the three fields the code reads.  A field that is missing reads as
    [undefined] ([None]); a present field is a JSON string, as the relay
    protocol and [AccountData] declare it.  A truthy value that is not an
    object has the three fields undefined. *)
Record AccountJson : Type := {
  bech32Address : option string;
  algo : option string;
  pubKey : option string
}.

(** [AccountData] of [@cosmjs/proto-signing]. *)
Record AccountData : Type := {
  address : string;
  pubkey : list Byte.byte;
  acc_algo : string
}.

(** The two kinds of [OfflineSigner] the component creates: the one obtained
    from [window.getOfflineSignerAuto(PUBLIC_CHAIN_ID)], and the object
    literal of [initWalletConnect], a closure over [newConnector] and
    [accounts]. *)
Inductive Signer : Type :=
  | KeplrSigner (chainId : string)
  | WalletConnectSigner (conn : nat) (account : AccountData).

(** [type ConnectedWalletType = 'keplr' | 'likerland_app'] *)
Inductive ConnectedWalletType : Type := keplr_type | likerland_app_type.

Definition wallet_type_tag (t : ConnectedWalletType) : string :=
  match t with
  | keplr_type => "keplr"
  | likerland_app_type => "likerland_app"
  end.

Definition signer_type (s : Signer) : ConnectedWalletType :=
  match s with
  | KeplrSigner _ => keplr_type
  | WalletConnectSigner _ _ => likerland_app_type
  end.

(** A [WalletConnect] client object, as far as the component reads it. *)
Record ConnObj : Type := {
  connected : bool;
  peerId : string
}.

(** A client object without a session. *)
Definition no_session : ConnObj := {| connected := false; peerId := "" |}.

(** Outcome of an awaited call: a value, or a rejection with its message. *)
Inductive Result (A : Type) : Type :=
  | Ok (a : A)
  | Throw (msg : string).
Arguments Ok {A} a.
Arguments Throw {A} msg.

(** What [sendCustomRequest] resolves with for [cosmos_getAccounts], seen
    through the array destructuring [[account] = ...]: a value that cannot be
    iterated, or a sequence whose elements are falsy ([None]: [null]) or
    truthy. *)
Inductive AccountsPayload : Type :=
  | NotIterable
  | Accounts (l : list (option AccountJson)).

(** Answers of the WalletConnect library during one [initWalletConnect]. *)
Record WcEnv : Type := {
  wc_first : ConnObj;           (* the client built first: the session the library finds *)
  wc_kill : option string;      (* [killSession()]: resolves, or rejects with a message *)
  wc_connect : Result string;   (* [connect()]: the peer id of the approved session *)
  wc_session : string;          (* the record the library keeps of the approved session *)
  wc_accounts : Result AccountsPayload
}.

(** Answers of the injected provider; [window.keplr] itself may be undefined. *)
Record KeplrEnv : Type := {
  kp_suggest : option string;   (* [experimentalSuggestChain]: rejection message *)
  kp_enable : option string;    (* [enable]: rejection message *)
  kp_signer : option string;    (* [getOfflineSignerAuto]: rejection message *)
  kp_accounts : Result (list AccountData)
}.

Record Env : Type := {
  keplr : option KeplrEnv;
  wc : WcEnv
}.

(** The part of [getChainInfo()] that differs between the two profiles. *)
Record ChainInfo : Type := {
  chainId : string;
  chainName : string;
  rpc : string;
  rest : string;
  coinDenom : string;
  coinMinimalDenom : string
}.

Definition mainnet : ChainInfo :=
  {| chainId := "likecoin-mainnet-2";
     chainName := "LikeCoin chain";
     rpc := "https://mainnet-node.like.co/rpc/";
     rest := "https://mainnet-node.like.co";
     coinDenom := "LIKE";
     coinMinimalDenom := "nanolike" |}.

Definition testnet : ChainInfo :=
  {| chainId := "likecoin-public-testnet-3";
     chainName := "LikeCoin public test chain";
     rpc := "https://likecoin-public-testnet-rpc.nnkken.dev/";
     rest := "https://likecoin-public-testnet-lcd.nnkken.dev/";
     coinDenom := "EKIL";
     coinMinimalDenom := "nanoekil" |}.

(** ** The monad of asynchronous functions *)

(** An asynchronous function over a state [S]: it ends with a value or with
    an exception, and with a new state either way. *)
Definition M (S A : Type) : Type := S → Result A * S.

Definition ret {S A} (a : A) : M S A := λ s, (Ok a, s).

Definition throw {S A} (msg : string) : M S A := λ s, (Throw msg, s).

Definition bind {S A B} (m : M S A) (f : A → M S B) : M S B :=
  λ s, match m s with
       | (Ok a, s') => f a s'
       | (Throw msg, s') => (Throw msg, s')
       end.

(** [try { m } catch (ex) { h(ex.message) }] *)
Definition try_catch {S A} (m : M S A) (h : string → M S A) : M S A :=
  λ s, match m s with
       | (Ok a, s') => (Ok a, s')
       | (Throw msg, s') => h msg s'
       end.

Definition modify {S} (f : S → S) : M S unit := λ s, (Ok tt, f s).

(** Outcome of an outside call that resolves with nothing. *)
Definition settle {S} (out : option string) : M S unit :=
  match out with
  | None => ret tt
  | Some msg => throw msg
  end.

Definition settle_with {S A} (out : Result A) : M S A :=
  match out with
  | Ok a => ret a
  | Throw msg => throw msg
  end.

Declare Scope async_scope.
Delimit Scope async_scope with async.
Notation "x <- m ;; k" := (bind m (λ x, k))
  (at level 20, m at level 99, k at level 200, only parsing) : async_scope.
Notation "m ;; k" := (bind m (λ _, k))
  (at level 100, k at level 200, only parsing, right associativity) : async_scope.

(** ** What the component takes from its environment and its libraries *)

Class Platform : Type := {
  (** [process.env.NEXT_PUBLIC_CHAIN_ID || ''] *)
  PUBLIC_CHAIN_ID : string;
  (** [SignDoc] of cosmjs-types with its JSON form and codec, and the
      signature type of a sign response. *)
  SignDoc : Type;
  SignDocJSON : Type;
  StdSignature : Type;
  SignDoc_toJSON : SignDoc → SignDocJSON;
  SignDoc_fromJSON : SignDocJSON → SignDoc;
  (** [JSON.stringify(account)] as [AsyncStorage.setItem] receives it
      ([None] is a falsy [account]), and [JSON.parse], which throws a
      [SyntaxError] ([None]) or yields a falsy or a truthy value. *)
  JSON_stringify : option AccountJson → string;
  JSON_parse : string → option (option AccountJson);
  (** [new Uint8Array(Buffer.from(pubKeyInHex, 'hex'))] *)
  Buffer_from_hex : string → list Byte.byte;
  (** [payloadId()] of [@walletconnect/utils]: the id produced by the n-th
      call made in this process. *)
  payloadId_at : nat → Z
}.

Section Model.

Context {P : Platform}.
Local Open Scope async_scope.

Definition isTestnet : bool := contains_testnet PUBLIC_CHAIN_ID.

Definition getChainInfo : ChainInfo := if isTestnet then testnet else mainnet.

(** ** Requests and the trace of outside calls *)

Inductive Param : Type :=
  | PString (s : string)
  | PSignDoc (doc : SignDocJSON).

Record Request : Type := {
  id : Z;
  jsonrpc : string;
  method : string;
  params : list Param
}.

Inductive Event : Type :=
  | EvGetAllKeys
  | EvGetItem (key : string)
  | EvSetItem (key value : string)
  | EvRemoveItem (key : string)
  | EvNewWalletConnect (c : nat)
  | EvKillSession (c : nat)
  | EvOnDisconnect (c : nat)
  | EvConnect (c : nat)
  | EvSendCustomRequest (c : nat) (req : Request)
  | EvSuggestChain (info : ChainInfo)
  | EvKeplrEnable (chain : string)
  | EvGetOfflineSignerAuto (chain : string)
  | EvKeplrGetAccounts.

(** The client object an event is about, if any. *)
Definition event_conn (ev : Event) : option nat :=
  match ev with
  | EvNewWalletConnect c | EvKillSession c | EvOnDisconnect c
  | EvConnect c | EvSendCustomRequest c _ => Some c
  | _ => None
  end.

(** A read or a removal through [AsyncStorage], as the restoration branch
    of [initWalletConnect] makes them. *)
Definition restores (ev : Event) : bool :=
  match ev with
  | EvGetItem _ | EvRemoveItem _ => true
  | _ => false
  end.

(** A pairing request. *)
Definition is_connect (ev : Event) : bool :=
  match ev with
  | EvConnect _ => true
  | _ => false
  end.

(** ** State *)

Record State : Type := {
  walletAddress : option string;
  offlineSigner : option Signer;
  connector : option nat;
  isLoading : bool;
  error : option string;
  storage : gmap string string;
  conns : list ConnObj;
  payloads : nat;
  trace : list Event
}.

(** State of a freshly mounted provider over a given persisted store. *)
Definition initial (store : gmap string string) : State :=
  {| walletAddress := None; offlineSigner := None; connector := None;
     isLoading := false; error := None; storage := store;
     conns := []; payloads := 0; trace := [] |}.

Definition with_walletAddress (v : option string) (s : State) : State :=
  {| walletAddress := v; offlineSigner := offlineSigner s; connector := connector s;
     isLoading := isLoading s; error := error s; storage := storage s;
     conns := conns s; payloads := payloads s; trace := trace s |}.

Definition with_offlineSigner (v : option Signer) (s : State) : State :=
  {| walletAddress := walletAddress s; offlineSigner := v; connector := connector s;
     isLoading := isLoading s; error := error s; storage := storage s;
     conns := conns s; payloads := payloads s; trace := trace s |}.

Definition with_connector (v : option nat) (s : State) : State :=
  {| walletAddress := walletAddress s; offlineSigner := offlineSigner s; connector := v;
     isLoading := isLoading s; error := error s; storage := storage s;
     conns := conns s; payloads := payloads s; trace := trace s |}.

Definition with_isLoading (v : bool) (s : State) : State :=
  {| walletAddress := walletAddress s; offlineSigner := offlineSigner s;
     connector := connector s; isLoading := v; error := error s; storage := storage s;
     conns := conns s; payloads := payloads s; trace := trace s |}.

Definition with_error (v : option string) (s : State) : State :=
  {| walletAddress := walletAddress s; offlineSigner := offlineSigner s;
     connector := connector s; isLoading := isLoading s; error := v; storage := storage s;
     conns := conns s; payloads := payloads s; trace := trace s |}.

Definition with_storage (v : gmap string string) (s : State) : State :=
  {| walletAddress := walletAddress s; offlineSigner := offlineSigner s;
     connector := connector s; isLoading := isLoading s; error := error s; storage := v;
     conns := conns s; payloads := payloads s; trace := trace s |}.

Definition with_conns (v : list ConnObj) (s : State) : State :=
  {| walletAddress := walletAddress s; offlineSigner := offlineSigner s;
     connector := connector s; isLoading := isLoading s; error := error s;
     storage := storage s; conns := v; payloads := payloads s; trace := trace s |}.

Definition with_payloads (v : nat) (s : State) : State :=
  {| walletAddress := walletAddress s; offlineSigner := offlineSigner s;
     connector := connector s; isLoading := isLoading s; error := error s;
     storage := storage s; conns := conns s; payloads := v; trace := trace s |}.

Definition with_trace (v : list Event) (s : State) : State :=
  {| walletAddress := walletAddress s; offlineSigner := offlineSigner s;
     connector := connector s; isLoading := isLoading s; error := error s;
     storage := storage s; conns := conns s; payloads := payloads s; trace := v |}.

Definition emit (ev : Event) : M State unit :=
  modify (λ s, with_trace (trace s ++ [ev]) s).

(** *** React state setters *)

Definition setWalletAddress (v : option string) : M State unit := modify (with_walletAddress v).
Definition setOfflineSigner (v : option Signer) : M State unit := modify (with_offlineSigner v).
Definition setConnector (v : option nat) : M State unit := modify (with_connector v).
Definition setIsLoading (v : bool) : M State unit := modify (with_isLoading v).
Definition setError (v : option string) : M State unit := modify (with_error v).

(** *** AsyncStorage *)

Definition getAllKeys : M State (list string) :=
  emit EvGetAllKeys ;;
  λ s, (Ok ((map_to_list (storage s)).*1), s).

Definition getItem (key : string) : M State (option string) :=
  emit (EvGetItem key) ;;
  λ s, (Ok (storage s !! key), s).

Definition setItem (key value : string) : M State unit :=
  emit (EvSetItem key value) ;;
  modify (λ s, with_storage (<[key := value]> (storage s)) s).

Definition removeItem (key : string) : M State unit :=
  emit (EvRemoveItem key) ;;
  modify (λ s, with_storage (delete key (storage s)) s).

(** [keys.forEach(async key => { await AsyncStorage.removeItem(key); })]:
    [forEach] runs each callback up to its [await], so one [removeItem] is
    issued per key, in order, before the statement that follows; the promises
    are not awaited. *)
Fixpoint forEach_removeItem (keys : list string) : M State unit :=
  match keys with
  | [] => ret tt
  | key :: rest => removeItem key ;; forEach_removeItem rest
  end.

(** *** WalletConnect client objects *)

(** [new WalletConnect({...})]: a new object, whose session state is what
    the library finds ([o]). *)
Definition newWalletConnect (o : ConnObj) : M State nat :=
  λ s, let c := length (conns s) in
       (Ok c, with_trace (trace s ++ [EvNewWalletConnect c])
                (with_conns (conns s ++ [o]) s)).

(** [c?.connected] *)
Definition conn_connected (c : option nat) : M State bool :=
  λ s, (Ok match c ≫= (λ i, conns s !! i) with
           | Some o => connected o
           | None => false
           end, s).

(** [c.peerId] *)
Definition conn_peerId (c : nat) : M State string :=
  λ s, (Ok match conns s !! c with
           | Some o => peerId o
           | None => ""
           end, s).

Definition update_conn (c : nat) (o : ConnObj) : M State unit :=
  modify (λ s, with_conns (<[c := o]> (conns s)) s).

(** The library drops, or writes, the record of its session. *)
Definition forget_session : M State unit :=
  modify (λ s, with_storage (delete KEY_WALLET_CONNECT (storage s)) s).

Definition record_session (session : string) : M State unit :=
  modify (λ s, with_storage (<[KEY_WALLET_CONNECT := session]> (storage s)) s).

(** [c.killSession()]: when the call resolves the session is over: the
    object no longer reports it and its record is gone from the store. *)
Definition killSession (c : nat) (out : option string) : M State unit :=
  emit (EvKillSession c) ;;
  settle out ;;
  update_conn c no_session ;;
  forget_session.

(** [c.connect()]: the pairing request; on approval the object is connected
    to the approving peer and the session is recorded in the store. *)
Definition connect (c : nat) (out : Result string) (session : string) : M State unit :=
  emit (EvConnect c) ;;
  peer <- settle_with out ;;
  update_conn c {| connected := true; peerId := peer |} ;;
  record_session session.

(** [c.sendCustomRequest(req)] *)
Definition sendCustomRequest {R} (c : nat) (req : Request) (out : Result R) : M State R :=
  emit (EvSendCustomRequest c req) ;;
  settle_with out.

(** [c.on('disconnect', ...)] *)
Definition onDisconnect (c : nat) : M State unit := emit (EvOnDisconnect c).

(** [payloadId()] *)
Definition payloadId : M State Z :=
  λ s, (Ok (payloadId_at (payloads s)), with_payloads (S (payloads s)) s).

(** ** The operations of [WalletProvider] *)

(** [suggestChain] *)
Definition suggestChain (k : option KeplrEnv) : M State unit :=
  match k with
  | None => ret tt
  | Some k =>
      setIsLoading true ;;
      try_catch
        (emit (EvSuggestChain getChainInfo) ;; settle (kp_suggest k))
        (λ msg, setError (Some msg)) ;;
      setIsLoading false
  end.

(** [disconnect], a callback that closes over the [connector] of the render
    it was created in ([captured]). *)
Definition disconnect (captured : option nat) : M State unit :=
  keys <- getAllKeys ;;
  let accountKeys := filter (λ key, is_account_key key = true) keys in
  forEach_removeItem accountKeys ;;
  removeItem KEY_CONNECTED_WALLET_TYPE ;;
  removeItem KEY_WALLET_CONNECT ;;
  isConnected <- conn_connected captured ;;
  match captured, isConnected with
  | Some c, true =>
      (* [void connector.killSession()]: not awaited *)
      killSession c None ;;
      setConnector None
  | _, _ => ret tt
  end ;;
  setWalletAddress None ;;
  setOfflineSigner None ;;
  setIsLoading false ;;
  setError None.

(** [initKepr]; [window.keplr.enable] on an undefined [window.keplr] is a
    [TypeError]. *)
Definition initKepr (k : option KeplrEnv) : M State bool :=
  match k with
  | None => throw "TypeError: Cannot read properties of undefined (reading 'enable')"
  | Some k =>
      emit (EvKeplrEnable PUBLIC_CHAIN_ID) ;;
      settle (kp_enable k) ;;
      emit (EvGetOfflineSignerAuto PUBLIC_CHAIN_ID) ;;
      settle (kp_signer k) ;;
      let myOfflineSigner := KeplrSigner PUBLIC_CHAIN_ID in
      emit EvKeplrGetAccounts ;;
      accounts <- settle_with (kp_accounts k) ;;
      match accounts with
      | [] => throw "TypeError: Cannot destructure property 'address' of undefined"
      | first :: _ =>
          if String.eqb (address first) "" then ret false
          else
            setWalletAddress (Some (address first)) ;;
            setOfflineSigner (Some myOfflineSigner) ;;
            setItem KEY_CONNECTED_WALLET_TYPE "keplr" ;;
            ret true
      end
  end.

(** The array destructuring [[account] = payload]. *)
Definition first_account (payload : AccountsPayload) : M State (option AccountJson) :=
  match payload with
  | NotIterable => throw "TypeError: object is not iterable"
  | Accounts [] => ret None
  | Accounts (first :: _) => ret first
  end.

Definition getAccountsRequest (i : Z) : Request :=
  {| id := i; jsonrpc := "2.0"; method := "cosmos_getAccounts";
     params := [PString PUBLIC_CHAIN_ID] |}.

(** First part of [initWalletConnect]: the client object that the rest of
    the function uses. *)
Definition openConnector (w : WcEnv) : M State nat :=
  first <- newWalletConnect (wc_first w) ;;
  setConnector (Some first) ;;
  isConnected <- conn_connected (Some first) ;;
  newConnector <-
    (if isConnected then
       killSession first (wc_kill w) ;;
       (* the session is over: the client built now finds none *)
       newWalletConnect no_session
     else ret first) ;;
  onDisconnect newConnector ;;
  ret newConnector.

(** Second part: the [account], from a fresh pairing or from the store. *)
Definition obtainAccount (w : WcEnv) (newConnector : nat) : M State (option AccountJson) :=
  isConnected <- conn_connected (Some newConnector) ;;
  if negb isConnected then
    connect newConnector (wc_connect w) (wc_session w) ;;
    i <- payloadId ;;
    payload <- sendCustomRequest newConnector (getAccountsRequest i) (wc_accounts w) ;;
    account <- first_account payload ;;
    peer <- conn_peerId newConnector ;;
    setItem (account_key peer) (JSON_stringify account) ;;
    ret account
  else
    peer <- conn_peerId newConnector ;;
    serializedWalletConnectAccount <- getItem (account_key peer) ;;
    walletConnectConnectSession <- getItem KEY_WALLET_CONNECT ;;
    if truthy serializedWalletConnectAccount then
      match JSON_parse (default "" serializedWalletConnectAccount) with
      | Some account => ret account
      | None => throw "SyntaxError: Unexpected token in JSON"
      end
    else if truthy walletConnectConnectSession then
      (* remove orphan session *)
      removeItem KEY_WALLET_CONNECT ;; ret None
    else ret None.

(** Last part: validation of the account and creation of the signer. *)
Definition adoptAccount (newConnector : nat) (account : option AccountJson) : M State bool :=
  match account with
  | None => ret false
  | Some account =>
      if negb (truthy (bech32Address account))
         || negb (truthy (algo account))
         || negb (truthy (pubKey account))
      then ret false
      else
        let address := default "" (bech32Address account) in
        let algo := default "" (algo account) in
        let pubKeyInHex := default "" (pubKey account) in
        let pubkey := Buffer_from_hex pubKeyInHex in
        let accountData := {| address := address; pubkey := pubkey; acc_algo := algo |} in
        let myOfflineSigner := WalletConnectSigner newConnector accountData in
        setWalletAddress (Some address) ;;
        setOfflineSigner (Some myOfflineSigner) ;;
        setItem KEY_CONNECTED_WALLET_TYPE "likerland_app" ;;
        ret true
  end.

(** [initWalletConnect] *)
Definition initWalletConnect (w : WcEnv) : M State bool :=
  newConnector <- openConnector w ;;
  account <- obtainAccount w newConnector ;;
  adoptAccount newConnector account.

(** The [try] block of [setupAccount]: what [connected] is assigned. *)
Definition restoreSession (e : Env) (connectedWalletType : option string) : M State bool :=
  if decide (connectedWalletType = Some "likerland_app") then initWalletConnect (wc e)
  else if decide (connectedWalletType = Some "keplr") then initKepr (keplr e)
  else ret false.

(** [setupAccount] *)
Definition setupAccount (e : Env) : M State unit :=
  match keplr e with
  | None => ret tt
  | Some _ =>
      connectedWalletType <- getItem KEY_CONNECTED_WALLET_TYPE ;;
      setIsLoading true ;;
      connected <- try_catch (restoreSession e connectedWalletType)
                     (λ msg, setError (Some msg) ;; ret false) ;;
      (* [if (!connected) debug(...)]: no effect *)
      setIsLoading false
  end.

(** [connectWalletConnect] *)
Definition connectWalletConnect (e : Env) : M State unit :=
  setIsLoading true ;;
  try_catch (initWalletConnect (wc e) ;; ret tt) (λ msg, setError (Some msg)) ;;
  setIsLoading false.

(** [connectKeplr] *)
Definition connectKeplr (e : Env) : M State unit :=
  match keplr e with
  | None => setError (Some "Keplr is not available")
  | Some _ =>
      setIsLoading true ;;
      try_catch
        (suggestChain (keplr e) ;; initKepr (keplr e) ;; ret tt)
        (λ msg, setError (Some msg)) ;;
      setIsLoading false
  end.

(** [keystoreChangeHandler], the listener of [keplr_keystorechange]; the
    promise of [initKepr] is dropped, so a rejection reaches nobody. *)
Definition keystoreChangeHandler (e : Env) : M State unit :=
  connectedWalletType <- getItem KEY_CONNECTED_WALLET_TYPE ;;
  if decide (connectedWalletType = Some "keplr")
  then try_catch (initKepr (keplr e) ;; ret tt) (λ _, ret tt)
  else ret tt.

(** ** The relayed signer *)

(** What [sendCustomRequest] resolves with for [cosmos_signDirect]. *)
Record SignResponseJSON : Type := {
  signed_json : SignDocJSON;
  signature_json : StdSignature
}.

(** [DirectSignResponse] *)
Record DirectSignResponse : Type := {
  signed : SignDoc;
  signature : StdSignature
}.

Definition signDirectRequest (i : Z) (signerAddress : string) (signDocInJSON : SignDocJSON)
  : Request :=
  {| id := i; jsonrpc := "2.0"; method := "cosmos_signDirect";
     params := [PString signerAddress; PSignDoc signDocInJSON] |}.

(** [myOfflineSigner.signDirect] of [initWalletConnect], for the client
    object [newConnector] the closure holds. *)
Definition signDirect (newConnector : nat) (signerAddress : string) (signDoc : SignDoc)
    (out : Result SignResponseJSON) : M State DirectSignResponse :=
  let signDocInJSON := SignDoc_toJSON signDoc in
  i <- payloadId ;;
  resInJSON <- sendCustomRequest newConnector
                 (signDirectRequest i signerAddress signDocInJSON) out ;;
  ret {| signed := SignDoc_fromJSON (signed_json resInJSON);
         signature := signature_json resInJSON |}.

(** [myOfflineSigner.getAccounts] *)
Definition getAccounts (account : AccountData) : M State (list AccountData) := ret [account].

(** ** Runs *)

Inductive Op : Type :=
  | OpConnectKeplr
  | OpConnectWalletConnect
  | OpDisconnect
  | OpSetupAccount
  | OpKeystoreChange
  | OpPeerDisconnect (captured : option nat).

Definition run_op (op : Op) (e : Env) (s : State) : State :=
  match op with
  | OpConnectKeplr => (connectKeplr e s).2
  | OpConnectWalletConnect => (connectWalletConnect e s).2
  | OpDisconnect => (disconnect (connector s) s).2
  | OpSetupAccount => (setupAccount e s).2
  | OpKeystoreChange => (keystoreChangeHandler e s).2
  | OpPeerDisconnect captured => (disconnect captured s).2
  end.

(** States the provider can be in: mounted over any store, then any
    sequence of operations against any outside world. *)
Inductive reachable : State → Prop :=
  | reachable_initial store : reachable (initial store)
  | reachable_step op e s : reachable s → reachable (run_op op e s).

(** ** Notions used in the statements *)

(** A session of backend [t] is active: the provider holds a signer of that
    backend. *)
Definition session_active (t : ConnectedWalletType) (s : State) : Prop :=
  ∃ sg, offlineSigner s = Some sg ∧ signer_type sg = t.

(** Address and signer are set together, the address is not empty, and the
    persisted wallet type names the backend of the signer. *)
Definition session_inv (s : State) : Prop :=
  match walletAddress s, offlineSigner s with
  | None, None => True
  | Some a, Some sg =>
      a ≠ "" ∧
      storage s !! KEY_CONNECTED_WALLET_TYPE = Some (wallet_type_tag (signer_type sg))
  | _, _ => False
  end.

(** [m] keeps [I], however it ends. *)
Definition preserves {A} (I : State → Prop) (m : M State A) : Prop :=
  ∀ s, I s → I (m s).2.

(** A state update that touches neither the address, nor the signer, nor
    the persisted wallet type. *)
Definition neutral (f : State → State) : Prop :=
  ∀ s, walletAddress (f s) = walletAddress s
       ∧ offlineSigner (f s) = offlineSigner s
       ∧ storage (f s) !! KEY_CONNECTED_WALLET_TYPE
         = storage s !! KEY_CONNECTED_WALLET_TYPE.

(** The client object now in use, and what it says of itself. *)
Definition uses (s : State) (c : nat) (o : ConnObj) : Prop := conns s !! c = Some o.

(** The state after an approved pairing and an answered account request,
    before the answer is looked at. *)
Definition paired (c : nat) (peer session : string) (s : State) : State :=
  with_trace (trace s ++ [EvConnect c;
                          EvSendCustomRequest c (getAccountsRequest (payloadId_at (payloads s)))])
    (with_payloads (S (payloads s))
       (with_storage (<[KEY_WALLET_CONNECT := session]> (storage s))
          (with_conns (<[c := {| connected := true; peerId := peer |}]> (conns s)) s))).

(** What [adoptAccount] accepts: a truthy account with three truthy fields. *)
Definition valid_account (account : option AccountJson) : bool :=
  match account with
  | Some a => truthy (bech32Address a) && truthy (algo a) && truthy (pubKey a)
  | None => false
  end.

(** The signer [adoptAccount] builds on the client [c]. *)
Definition signer_of (c : nat) (account : option AccountJson) : Signer :=
  WalletConnectSigner c
    {| address := default "" (account ≫= bech32Address);
       pubkey := Buffer_from_hex (default "" (account ≫= pubKey));
       acc_algo := default "" (account ≫= algo) |}.

(** The client object [initWalletConnect] goes on with: the first one it
    builds, or, when that one is connected, the one it builds after the
    kill; none when the kill is rejected. *)
Definition client_in_use (w : WcEnv) : option ConnObj :=
  if connected (wc_first w) then
    match wc_kill w with
    | None => Some no_session
    | Some _ => None
    end
  else Some (wc_first w).

(** The store [openConnector] leaves: a session that is found is killed,
    and its record goes with it. *)
Definition opened_store (w : WcEnv) (store : gmap string string) : gmap string string :=
  if connected (wc_first w) then delete KEY_WALLET_CONNECT store else store.

(** What [openConnector] leaves as it found it. *)
Definition same_session (w : WcEnv) (s s' : State) : Prop :=
  walletAddress s' = walletAddress s
  ∧ offlineSigner s' = offlineSigner s
  ∧ storage s' = opened_store w (storage s)
  ∧ error s' = error s
  ∧ isLoading s' = isLoading s
  ∧ payloads s' = payloads s.

(** [s'] extends the trace of [s] by [evs]. *)
Definition emitted (s s' : State) (evs : list Event) : Prop :=
  trace s' = trace s ++ evs.

(** An event that is not about a client, or is about the client [c]. *)
Definition about (c : nat) (ev : Event) : Prop :=
  event_conn ev = None ∨ event_conn ev = Some c.

(** The signer is the one of [s], or one built on the client [c]. *)
Definition signer_on (c : nat) (s s' : State) : Prop :=
  offlineSigner s' = offlineSigner s
  ∨ ∃ account, offlineSigner s' = Some (WalletConnectSigner c account).

(** What follows [openConnector] in [initWalletConnect]. *)
Definition withClient (w : WcEnv) (c : nat) : M State bool :=
  account <- obtainAccount w c ;;
  adoptAccount c account.

(** Neither the session, nor the error, nor the persisted wallet type has
    changed. *)
Definition unchanged_session (s s' : State) : Prop :=
  walletAddress s' = walletAddress s
  ∧ offlineSigner s' = offlineSigner s
  ∧ error s' = error s
  ∧ storage s' !! KEY_CONNECTED_WALLET_TYPE = storage s !! KEY_CONNECTED_WALLET_TYPE.

(** The state in which [setupAccount] enters its [try] block. *)
Definition at_try (s : State) : State :=
  with_isLoading true (with_trace (trace s ++ [EvGetItem KEY_CONNECTED_WALLET_TYPE]) s).

(** The answer to [cosmos_getAccounts] cannot be destructured, or its first
    element is missing, falsy, or lacks one of the three fields. *)
Definition invalid_payload (payload : AccountsPayload) : bool :=
  match payload with
  | NotIterable => true
  | Accounts l => negb (valid_account (mjoin (head l)))
  end.

End Model.

(** * Further notions *)

Section WalletNotions.

Context {P : Platform}.

(** The calls [initKepr] makes on a provider that answers. *)
Definition keplr_calls : list Event :=
  [EvKeplrEnable PUBLIC_CHAIN_ID; EvGetOfflineSignerAuto PUBLIC_CHAIN_ID;
   EvKeplrGetAccounts].

(** The session after an operation, against the one before it: kept,
    cleared, replaced by one of the injected provider, or replaced by a
    relayed one built from a valid account. *)
Definition session_step (s s' : State) : Prop :=
  (walletAddress s' = walletAddress s ∧ offlineSigner s' = offlineSigner s)
  ∨ (walletAddress s' = None ∧ offlineSigner s' = None)
  ∨ (∃ a, a ≠ "" ∧ walletAddress s' = Some a
          ∧ offlineSigner s' = Some (KeplrSigner PUBLIC_CHAIN_ID))
  ∨ (∃ c account, valid_account account = true
          ∧ walletAddress s' = Some (default "" (account ≫= bech32Address))
          ∧ offlineSigner s' = Some (signer_of c account)).

(** The signer answers for the address the provider shows: the account of
    a relayed signer has the wallet address, and a signer of the injected
    provider is the one of [PUBLIC_CHAIN_ID]. *)
Definition signer_matches_address (s : State) : Prop :=
  match offlineSigner s with
  | Some (WalletConnectSigner c account) =>
      walletAddress s = Some (address account)
      ∧ address account ≠ "" ∧ acc_algo account ≠ ""
  | Some (KeplrSigner chain) => chain = PUBLIC_CHAIN_ID ∧ is_Some (walletAddress s)
  | None => walletAddress s = None
  end.

(** Does [disconnect] call [killSession]?  It does on a captured client that
    reports a session. *)
Definition kills (captured : option nat) (s : State) : bool :=
  match captured ≫= (λ c, conns s !! c) with
  | Some o => connected o
  | None => false
  end.

Definition is_kill (ev : Event) : bool :=
  match ev with
  | EvKillSession _ => true
  | _ => false
  end.

(** The state after a pairing whose account answer is adopted. *)
Definition adopted (c : nat) (peer session : string) (account : option AccountJson)
    (s : State) : State :=
  let text := JSON_stringify account in
  let s1 := paired c peer session s in
  let s2 := with_storage (<[account_key peer := text]> (storage s1))
              (with_trace (trace s1 ++ [EvSetItem (account_key peer) text]) s1) in
  with_storage (<[KEY_CONNECTED_WALLET_TYPE := "likerland_app"]> (storage s2))
    (with_trace (trace s2 ++ [EvSetItem KEY_CONNECTED_WALLET_TYPE "likerland_app"])
       (with_offlineSigner (Some (signer_of c account))
          (with_walletAddress (Some (default "" (account ≫= bech32Address))) s2))).

End WalletNotions.

(** * The colour mode, kept in the same store *)



Definition KEY_COLOR_MODE : string := "@color-mode".

Section ColorModeManager.

Context {P : Platform}.
Local Open Scope async_scope.



(** The entry under [key] is [v]. *)
Definition keeps (key : string) (v : option string) (s : State) : Prop :=
  storage s !! key = v.

(** A key that is none of the wallet provider's. *)
Definition foreign (key : string) : Prop :=
  is_account_key key = false
  ∧ key ≠ KEY_CONNECTED_WALLET_TYPE
  ∧ key ≠ KEY_WALLET_CONNECT.

End ColorModeManager.

(** * The channel screen

    [ChannelScreen] of the same package reads the wallet provider through
    [useWallet] and keeps the list of messages of one channel.

    - An asynchronous function of the screen is cut at its [await]: the part
      before it runs when the function is called, the part after it when the
      awaited promise resolves, with the values the call closed over.  When
      the promise is rejected the part after it never runs.
    - A call is made from the latest render, so it reads the state as it is
      when the call is made.
    - What [fetchMessagesByHashTag], [dataUrlToFile] and [postMessage]
      settle with is an input. *)

(** An exception as the [catch] of [handleOnSubmit] looks at it:
    [ex instanceof AppStateError] and [ex.message]. *)
Record Exception : Type := {
  isAppStateError : bool;
  message : string
}.

Inductive Settled (A : Type) : Type :=
  | Resolved (a : A)
  | Rejected (ex : Exception).
Arguments Resolved {A} a.
Arguments Rejected {A} ex.

(** [status] of an alert. *)
Inductive AlertStatus : Type := status_error | status_success.

(** The part of a [DesmosProfile] the screen reads. *)
Record Profile : Type := {
  dtag : option string
}.

Section Channel.

Context {P : Platform} {Message File : Type}.

(** [{ data, hasMore }], what [fetchMessagesByHashTag] resolves with; a
    [data] that is null or missing is [None]. *)
Record Page : Type := {
  data : option (list Message);
  hasMore : bool
}.

(** A call of [fetchNewMessages] that waits for [fetchMessagesByHashTag],
    with what its closure holds. *)
Record Fetch : Type := {
  fetch_name : string;
  fetch_previousId : option string;
  fetch_refresh : bool;
  fetch_messages : list Message
}.

Record Screen : Type := {
  messages : list Message;
  channelName : option string;
  isListReachedEnd : bool;
  isLoadingMore : bool;
  title : option string;                        (* [navigation.setOptions({ title })] *)
  requests : list (string * option string);     (* calls of [fetchMessagesByHashTag] *)
  waiting : list Fetch                          (* calls stopped at their [await] *)
}.

(** The screen when it is mounted. *)
Definition initial_screen : Screen :=
  {| messages := []; channelName := None; isListReachedEnd := false;
     isLoadingMore := false; title := None; requests := []; waiting := [] |}.

(** [fetchNewMessages(previousId, refresh)] up to its [await], in a render
    for the route [name]. *)
Definition fetchNewMessages (name : string) (previousId : option string) (refresh : bool)
    (s : Screen) : Screen :=
  if isLoadingMore s || isListReachedEnd s then s
  else
    {| messages := messages s; channelName := channelName s;
       isListReachedEnd := isListReachedEnd s;
       isLoadingMore := true;
       title := title s;
       requests := requests s ++ [(name, previousId)];
       waiting := waiting s ++ [{| fetch_name := name; fetch_previousId := previousId;
                                   fetch_refresh := refresh;
                                   fetch_messages := messages s |}] |}.

(** The rest of [fetchNewMessages], for the call [f] and the page it
    awaited. *)
Definition fetchNewMessages_resume (f : Fetch) (page : Page) (s : Screen) : Screen :=
  {| messages :=
       match data page with
       | Some newMessages =>
           if negb (fetch_refresh f) then fetch_messages f ++ newMessages
           else newMessages
       | None => messages s
       end;
     channelName := channelName s;
     isListReachedEnd := if negb (hasMore page) then true else isListReachedEnd s;
     isLoadingMore := false;
     title := title s;
     requests := requests s;
     waiting := waiting s |}.

(** The reset of the [useFocusEffect] callback. *)
Definition focus_reset (name : string) (s : Screen) : Screen :=
  {| messages := []; channelName := Some name; isListReachedEnd := false;
     isLoadingMore := isLoadingMore s;
     title := Some ("#" +:+ name);
     requests := requests s; waiting := waiting s |}.

(** The effect on [channelName]: [fetchNewMessages(undefined, true)]. *)
Definition channelEffect (name : string) : Screen → Screen :=
  fetchNewMessages name None true.

(** The screen gets the focus for the route [name]: when the channel is
    another one the callback resets the list, and the change of
    [channelName] runs the effect in the render that follows. *)
Definition onFocus (name : string) (s : Screen) : Screen :=
  if decide (channelName s = Some name) then s
  else channelEffect name (focus_reset name s).

(** Mounting the screen for the route [name]: the effect, then the focus. *)
Definition mount (name : string) : Screen :=
  onFocus name (channelEffect name initial_screen).

Definition with_waiting (v : list Fetch) (s : Screen) : Screen :=
  {| messages := messages s; channelName := channelName s;
     isListReachedEnd := isListReachedEnd s; isLoadingMore := isLoadingMore s;
     title := title s; requests := requests s; waiting := v |}.

(** What can happen to a mounted screen. *)
Inductive ScreenOp : Type :=
  | OpFocus (name : string)
  | OpFetch (name : string) (previousId : option string) (refresh : bool)
  | OpResolve (page : Page)
  | OpReject.

Definition screen_step (op : ScreenOp) (s : Screen) : Screen :=
  match op with
  | OpFocus name => onFocus name s
  | OpFetch name previousId refresh => fetchNewMessages name previousId refresh s
  | OpResolve page =>
      match waiting s with
      | f :: rest => fetchNewMessages_resume f page (with_waiting rest s)
      | [] => s
      end
  | OpReject =>
      match waiting s with
      | f :: rest => with_waiting rest s
      | [] => s
      end
  end.

Definition screen_run (ops : list ScreenOp) (s : Screen) : Screen :=
  foldl (λ acc op, screen_step op acc) s ops.

Inductive screen_reachable : Screen → Prop :=
  | screen_reachable_initial : screen_reachable initial_screen
  | screen_reachable_step op s :
      screen_reachable s → screen_reachable (screen_step op s).

(** At most one call waits, and while one waits the list is loading. *)
Definition one_in_flight (s : Screen) : Prop :=
  length (waiting s) ≤ 1 ∧ (waiting s ≠ [] → isLoadingMore s = true).

(** A focus that changes the channel. *)
Definition leaves (current : option string) (op : ScreenOp) : bool :=
  match op with
  | OpFocus name => negb (bool_decide (current = Some name))
  | _ => false
  end.

(** Loading one page after the other: each is asked for and arrives before
    the next one is asked for. *)
Definition load_page (name : string) (s : Screen) (p : option string * list Message) : Screen :=
  screen_step (OpResolve {| data := Some p.2; hasMore := true |})
    (screen_step (OpFetch name p.1 false) s).

(** ** Submitting a message *)

(** [Boolean(walletAddress && !isConnectLoading)] *)
Definition isLoggedIn (w : State) : bool :=
  truthy (walletAddress w) && negb (isLoading w).

(** [likecoinAddress && profile?.dtag ? profile.dtag : walletAddress], with
    [likecoinAddress = profile && getLikecoinAddressByProfile(profile)]; the
    lookup of the address in the profile is a function of the caller's. *)
Definition userHandle (getLikecoinAddressByProfile : Profile → option string)
    (profile : option Profile) (w : State) : option string :=
  let likecoinAddress := profile ≫= getLikecoinAddressByProfile in
  if truthy likecoinAddress && truthy (profile ≫= dtag) then profile ≫= dtag
  else walletAddress w.

(** A [string | null] value inside a template literal. *)
Definition template_text (v : option string) : string :=
  match v with
  | Some text => text
  | None => "null"
  end.

(** What [handleOnSubmit] does to the outside, in order. *)
Inductive UiEvent : Type :=
  | DataUrlToFile (image fileName : string)
  | AlertShow (alertTitle : string) (status : AlertStatus)
  | ShowLoading
  | CloseLoading
  | PostMessage (signer : Signer) (text : string) (files : option (list File))
  | WaitAsync (ms : nat)
  | SetLocationHref (href : string).

(** What [dataUrlToFile] and [postMessage] settle with; of the transaction
    only its truthiness is read. *)
Record SubmitEnv : Type := {
  file_of : Settled File;
  posted : Settled bool
}.

(** The [catch] block. *)
Definition submit_catch (ex : Exception) : list UiEvent :=
  [CloseLoading;
   AlertShow (if isAppStateError ex then message ex
              else "Something went wrong, please try again later") status_error].

(** [handleOnSubmit(data, image)] in a render with wallet state [w] and user
    handle [handle]. *)
Definition handleOnSubmit (w : State) (handle : option string) (env : SubmitEnv)
    (text : string) (image : option string) : list UiEvent :=
  let conversion : list UiEvent * Settled (option File) :=
    if truthy image then
      ([DataUrlToFile (default "" image) "upload"],
       match file_of env with
       | Resolved file => Resolved (Some file)
       | Rejected ex => Rejected ex
       end)
    else ([], Resolved None) in
  match conversion with
  | (evs, Rejected ex) => evs ++ submit_catch ex
  | (evs, Resolved file) =>
      match offlineSigner w with
      | None => evs ++ [AlertShow "No valid signer, please connect wallet" status_error]
      | Some signer =>
          evs ++ [ShowLoading; PostMessage signer text (file ≫= λ f, Some [f])]
          ++ match posted env with
             | Rejected ex => submit_catch ex
             | Resolved txn =>
                 [WaitAsync 500; SetLocationHref ("/user/" +:+ template_text handle)]
                 ++ (if txn then [AlertShow "Post created successfully!" status_success]
                     else [])
             end
      end
  end.

Definition is_redirect (ev : UiEvent) : bool :=
  match ev with
  | SetLocationHref _ => true
  | _ => false
  end.

Definition is_post (ev : UiEvent) : bool :=
  match ev with
  | PostMessage _ _ _ => true
  | _ => false
  end.

Definition is_alert (ev : UiEvent) : bool :=
  match ev with
  | AlertShow _ _ => true
  | _ => false
  end.

End Channel.

(** * Example inputs *)

Definition example_chain : string := "likecoin-mainnet-2".

Definition hex_value (a : Ascii.ascii) : option N :=
  let n := Ascii.N_of_ascii a in
  if ((48 <=? n) && (n <=? 57))%N then Some (n - 48)%N
  else if ((97 <=? n) && (n <=? 102))%N then Some (n - 87)%N
  else if ((65 <=? n) && (n <=? 70))%N then Some (n - 55)%N
  else None.

(** A decoder in the manner of [Buffer.from(text, 'hex')]: pairs of hex
    digits, up to the first pair that is not one. *)
Fixpoint example_hex (text : string) : list Byte.byte :=
  match text with
  | String a (String b rest) =>
      match hex_value a, hex_value b with
      | Some x, Some y =>
          match Byte.of_N (16 * x + y) with
          | Some byte => byte :: example_hex rest
          | None => []
          end
      | _, _ => []
      end
  | _ => []
  end.

Definition quote : string := String (Ascii.ascii_of_nat 34) "".

Definition json_field (name : string) (value : option string) : list string :=
  match value with
  | Some v => [quote +:+ name +:+ quote +:+ ":" +:+ quote +:+ v +:+ quote]
  | None => []
  end.

(** A printer in the manner of [JSON.stringify] for the account objects of
    the examples. *)
Definition example_stringify (account : option AccountJson) : string :=
  match account with
  | None => "null"
  | Some a =>
      "{" +:+ String.concat ","
                (json_field "bech32Address" (bech32Address a)
                 ++ json_field "algo" (algo a)
                 ++ json_field "pubKey" (pubKey a)) +:+ "}"
  end.

Definition alice : AccountJson :=
  {| bech32Address := Some "cosmos1alice";
     algo := Some "secp256k1";
     pubKey := Some "02ab" |}.

Definition no_algo : AccountJson :=
  {| bech32Address := Some "cosmos1alice";
     algo := None;
     pubKey := Some "02ab" |}.

(** A reader that knows the texts of the examples and rejects the rest. *)
Definition example_parse (text : string) : option (option AccountJson) :=
  if decide (text = example_stringify (Some alice)) then Some (Some alice)
  else if decide (text = example_stringify (Some no_algo)) then Some (Some no_algo)
  else if decide (text = "null") then Some None
  else None.

Definition example_ids (n : nat) : Z := (1667260800000000 + Z.of_nat n)%Z.

Definition example_toJSON (doc : string) : string := "json:" +:+ doc.

Definition example_fromJSON (json : string) : string :=
  String.substring 5 (String.length json - 5) json.

Definition example_platform : Platform :=
  {| PUBLIC_CHAIN_ID := example_chain;
     SignDoc := string;
     SignDocJSON := string;
     StdSignature := string;
     SignDoc_toJSON := example_toJSON;
     SignDoc_fromJSON := example_fromJSON;
     JSON_stringify := example_stringify;
     JSON_parse := example_parse;
     Buffer_from_hex := example_hex;
     payloadId_at := example_ids |}.

(** Answers of the injected provider. *)
Definition keplr_ok : KeplrEnv :=
  {| kp_suggest := None; kp_enable := None; kp_signer := None;
     kp_accounts := Ok [{| address := "cosmos1bob"; pubkey := []; acc_algo := "secp256k1" |}] |}.

Definition keplr_rejects : KeplrEnv :=
  {| kp_suggest := None; kp_enable := Some "Request rejected"; kp_signer := None;
     kp_accounts := Ok [] |}.

(** Records of relay sessions, as the library keeps them. *)
Definition session_blob : string := "{session of peer-1}".
Definition new_session_blob : string := "{session of peer-2}".

(** Answers of the relay library.  [wc_live]: the session of "peer-1" is
    found live; once it is killed a new pairing is approved by "peer-2",
    whose account is [alice].  [wc_live_unapproved]: the same, but the user
    closes the pairing dialog.  [wc_unapproved]: no session is found, and
    the user closes the pairing dialog.  [wc_pairs]: no session is found,
    and the pairing is approved by "peer-1", whose account is [alice];
    [wc_pairs_no_algo]: the same, with an account answer that lacks
    [algo]. *)
Definition wc_live : WcEnv :=
  {| wc_first := {| connected := true; peerId := "peer-1" |};
     wc_kill := None;
     wc_connect := Ok "peer-2";
     wc_session := new_session_blob;
     wc_accounts := Ok (Accounts [Some alice]) |}.

Definition wc_live_unapproved : WcEnv :=
  {| wc_first := {| connected := true; peerId := "peer-1" |};
     wc_kill := None;
     wc_connect := Throw "User close QRCode Modal";
     wc_session := new_session_blob;
     wc_accounts := Throw "Session disconnected" |}.

Definition wc_unapproved : WcEnv :=
  {| wc_first := no_session;
     wc_kill := None;
     wc_connect := Throw "User close QRCode Modal";
     wc_session := new_session_blob;
     wc_accounts := Throw "Session disconnected" |}.

Definition wc_pairs : WcEnv :=
  {| wc_first := no_session;
     wc_kill := None;
     wc_connect := Ok "peer-1";
     wc_session := session_blob;
     wc_accounts := Ok (Accounts [Some alice]) |}.

Definition wc_pairs_no_algo : WcEnv :=
  {| wc_first := no_session;
     wc_kill := None;
     wc_connect := Ok "peer-1";
     wc_session := session_blob;
     wc_accounts := Ok (Accounts [Some no_algo]) |}.

Definition env_no_keplr : Env := {| keplr := None; wc := wc_live |}.
Definition env_live : Env := {| keplr := Some keplr_ok; wc := wc_live |}.
Definition env_live_unapproved : Env := {| keplr := Some keplr_ok; wc := wc_live_unapproved |}.
Definition env_unapproved : Env := {| keplr := Some keplr_ok; wc := wc_unapproved |}.
Definition env_pairs : Env := {| keplr := Some keplr_ok; wc := wc_pairs |}.
Definition env_keplr_rejects : Env := {| keplr := Some keplr_rejects; wc := wc_live |}.
Definition env_pairs_no_algo : Env := {| keplr := Some keplr_ok; wc := wc_pairs_no_algo |}.

(** Stores.  [relayed_store]: what a pairing with "peer-1" that adopted
    [alice] leaves.  [orphan_store]: the same without the cached account. *)
Definition relayed_store : gmap string string :=
  list_to_map [(KEY_CONNECTED_WALLET_TYPE, "likerland_app");
               (KEY_WALLET_CONNECT, session_blob);
               (account_key "peer-1", example_stringify (Some alice))].

Definition orphan_store : gmap string string :=
  list_to_map [(KEY_CONNECTED_WALLET_TYPE, "likerland_app");
               (KEY_WALLET_CONNECT, session_blob)].

Definition keplr_store : gmap string string :=
  list_to_map [(KEY_CONNECTED_WALLET_TYPE, "keplr")].

(** The operations over the example platform. *)
Definition example_state : Type := @State example_platform.
Definition example_initial : gmap string string → example_state := @initial example_platform.
Definition example_connectKeplr : Env → M example_state () := @connectKeplr example_platform.
Definition example_connectWalletConnect : Env → M example_state () := @connectWalletConnect example_platform.
Definition example_initWalletConnect : WcEnv → M example_state bool := @initWalletConnect example_platform.
Definition example_restoreSession : Env → option string → M example_state bool :=
  @restoreSession example_platform.
Definition example_setupAccount : Env → M example_state () := @setupAccount example_platform.
Definition example_signDirect :
  nat → string → string → Result (@SignResponseJSON example_platform)
  → M example_state (@DirectSignResponse example_platform) := @signDirect example_platform.

(** States. *)
Definition fresh_empty_mount : example_state := example_initial ∅.
Definition fresh_mount : example_state := example_initial relayed_store.
Definition fresh_keplr_mount : example_state := example_initial keplr_store.
Definition fresh_orphan_mount : example_state := example_initial orphan_store.

(** Connected through the relay, by a first pairing. *)
Definition mounted_relayed : example_state :=
  (example_connectWalletConnect env_pairs fresh_empty_mount).2.

Definition connected_keplr : example_state :=
  @run_op example_platform OpConnectKeplr env_live fresh_empty_mount.

(** Two starts in a row over a persisted relayed session that the relay
    reports live, the second over the store the first leaves, when the user
    does not approve a new pairing. *)
Definition first_start : example_state :=
  (example_setupAccount env_live_unapproved fresh_mount).2.
Definition second_start : example_state :=
  (example_setupAccount env_unapproved (example_initial (storage first_start))).2.

(** A start over a live session without a cached account. *)
Definition orphan_start : example_state :=
  (example_setupAccount env_live fresh_orphan_mount).2.

Definition alice_data : AccountData :=
  {| address := "cosmos1alice"; pubkey := [Byte.x02; Byte.xab]; acc_algo := "secp256k1" |}.

Definition sign_run : Result (@DirectSignResponse example_platform) * example_state :=
  example_signDirect 0 "cosmos1alice" "body"
    (Ok (@Build_SignResponseJSON example_platform "json:body" "c2lnbmF0dXJl"))
    mounted_relayed.

(** ** Further example inputs *)

(** A provider that lists no account, after a chain suggestion it
    rejected. *)
Definition keplr_empty : KeplrEnv :=
  {| kp_suggest := Some "Chain suggestion rejected"; kp_enable := None; kp_signer := None;
     kp_accounts := Ok [] |}.

Definition env_keplr_empty : Env := {| keplr := Some keplr_empty; wc := wc_live |}.

Definition bob_data : AccountData :=
  {| address := "cosmos1bob"; pubkey := []; acc_algo := "secp256k1" |}.

Definition example_keystoreChangeHandler : Env → M example_state () :=
  @keystoreChangeHandler example_platform.
Definition example_disconnect : option nat → M example_state () :=
  @disconnect example_platform.
Definition example_run_op : Op → Env → example_state → example_state :=
  @run_op example_platform.

(** Connected through the relay after a live session was replaced. *)
Definition replaced_relayed : example_state :=
  (example_connectWalletConnect env_live fresh_mount).2.

(** The screen of the channel "rocq", with texts for messages. *)
Definition example_screen : Type := @Screen string.

Definition mounted_screen : example_screen := mount "rocq".

Definition first_page : @Page string :=
  {| data := Some ["hello"; "world"]; hasMore := true |}.

Definition last_page : @Page string :=
  {| data := Some ["bye"]; hasMore := false |}.

Definition listed_screen : example_screen :=
  screen_step (OpResolve first_page) mounted_screen.

Definition mounted_fetch : @Fetch string :=
  {| fetch_name := "rocq"; fetch_previousId := None; fetch_refresh := true;
     fetch_messages := [] |}.

Definition example_submit : @SubmitEnv string :=
  {| file_of := Resolved "upload.png"; posted := Resolved true |}.

Definition example_handleOnSubmit :
  example_state → option string → @SubmitEnv string → string → option string
  → list (@UiEvent string) := @handleOnSubmit example_platform string.

Definition no_likecoin (profile : Profile) : option string := None.

Definition dark_store : gmap string string :=
  list_to_map [(KEY_CONNECTED_WALLET_TYPE, "keplr"); (KEY_COLOR_MODE, "dark")].

Definition fresh_dark_mount : example_state := example_initial dark_store.

Definition at_keystore_change : example_state :=
  with_trace (trace fresh_keplr_mount ++ [EvGetItem KEY_CONNECTED_WALLET_TYPE])
    fresh_keplr_mount.

Definition after_rejection : list (@ScreenOp string) :=
  [OpFetch "rocq" None true; OpFocus "coq"; OpResolve first_page; OpFocus "rocq"].

Definition at_the_end : list (@ScreenOp string) :=
  [OpFetch "rocq" (Some "bye") false; OpFocus "rocq"; OpReject].

Definition more_pages : list (option string * list string) :=
  [(Some "world", ["again"]); (Some "again", ["more"; "texts"])].

Section Facts.

Context {P : Platform}.
Local Open Scope async_scope.

(** ** Storage lemmas *)

Lemma prefix_app (p rest : string) : String.prefix p (p +:+ rest) = true.
Proof.
  induction p as [|a p IH]; simpl.
  - by destruct rest.
  - rewrite IH. by destruct (Ascii.ascii_dec a a).
Qed.

Lemma account_key_is_account_key peer : is_account_key (account_key peer) = true.
Proof. apply prefix_app. Qed.

Lemma lookup_foldl_delete (keys : list string) (m : gmap string string) (k : string) :
  foldl (λ acc key, delete key acc) m keys !! k
  = if decide (k ∈ keys) then None else m !! k.
Proof.
  revert m. induction keys as [|key keys IH]; intros m; cbn [foldl].
  - rewrite decide_False; [done | apply not_elem_of_nil].
  - rewrite IH. destruct (decide (k ∈ keys)) as [Hin|Hin].
    + rewrite decide_True; [done | apply elem_of_cons; by right].
    + destruct (decide (key = k)) as [->|Hne].
      * rewrite decide_True by (apply elem_of_cons; by left). apply lookup_delete_eq.
      * rewrite decide_False by (apply not_elem_of_cons; split; congruence).
        by apply lookup_delete_ne.
Qed.

Lemma forEach_removeItem_run keys s :
  forEach_removeItem keys s
  = (Ok tt,
     with_trace (trace s ++ (EvRemoveItem <$> keys))
       (with_storage (foldl (λ acc key, delete key acc) (storage s) keys) s)).
Proof.
  revert s. induction keys as [|key keys IH]; intros s.
  - destruct s; simpl. unfold ret, with_trace, with_storage; simpl.
    by rewrite app_nil_r.
  - simpl. unfold bind at 1. unfold removeItem, emit, modify, bind. simpl.
    rewrite IH. destruct s; unfold with_trace, with_storage; simpl.
    by rewrite <- app_assoc.
Qed.

(** Every key of the store that passes the filter of [disconnect] is among
    the keys [disconnect] removes. *)
Lemma account_keys_listed (m : gmap string string) (k : string) :
  is_account_key k = true → is_Some (m !! k) →
  k ∈ filter (λ key, is_account_key key = true) ((map_to_list m).*1).
Proof.
  intros Hk [v Hv]. apply list_elem_of_filter. split; [done|].
  apply list_elem_of_fmap. exists (k, v). split; [done|].
  by apply elem_of_map_to_list.
Qed.

(** ** Disconnect *)

(** The complete effect of [disconnect]. *)
Lemma disconnect_run captured s :
  ∃ s', disconnect captured s = (Ok tt, s')
    ∧ walletAddress s' = None
    ∧ offlineSigner s' = None
    ∧ isLoading s' = false
    ∧ error s' = None
    ∧ storage s'
      = delete KEY_WALLET_CONNECT
          (delete KEY_CONNECTED_WALLET_TYPE
             (foldl (λ acc key, delete key acc) (storage s)
                (filter (λ key, is_account_key key = true)
                   ((map_to_list (storage s)).*1)))).
Proof.
  unfold disconnect, getAllKeys.
  unfold bind at 1. unfold bind at 1. unfold emit at 1, modify at 1.
  unfold bind at 1. rewrite forEach_removeItem_run.
  unfold removeItem, emit, modify, bind, conn_connected; simpl.
  destruct captured as [c|]; simpl.
  - destruct (conns s !! c) as [o|]; simpl; [destruct (connected o)|]; simpl;
      eexists; (split; [reflexivity|]); simpl; rewrite ?delete_delete_eq; done.
  - eexists; (split; [reflexivity|]); simpl; done.
Qed.

(** C1.  From every state (so from every reachable one), [disconnect]
    completes, and afterwards the wallet address and the signer are absent
    and the store holds no connected-wallet-type entry, no relay session blob
    and no account cache entry, whatever the peer id. *)
Theorem disconnect_clears_state captured s :
  (disconnect captured s).1 = Ok tt
  ∧ walletAddress (disconnect captured s).2 = None
  ∧ offlineSigner (disconnect captured s).2 = None
  ∧ storage (disconnect captured s).2 !! KEY_CONNECTED_WALLET_TYPE = None
  ∧ storage (disconnect captured s).2 !! KEY_WALLET_CONNECT = None
  ∧ ∀ peer, storage (disconnect captured s).2 !! account_key peer = None.
Proof.
  destruct (disconnect_run captured s) as (s' & -> & Hw & Hs & _ & _ & Hst); simpl.
  rewrite Hst. repeat split; try done.
  - rewrite lookup_delete_ne by done. apply lookup_delete_eq.
  - apply lookup_delete_eq.
  - intros peer.
    rewrite lookup_delete_ne by done. rewrite lookup_delete_ne by done.
    rewrite lookup_foldl_delete.
    destruct (decide (account_key peer ∈ _)) as [Hin|Hin]; [done|].
    destruct (storage s !! account_key peer) eqn:Hl; [|done].
    exfalso. apply Hin, account_keys_listed; [apply account_key_is_account_key | by eexists].
Qed.

(** ** The session invariant *)

Lemma preserves_ret {A} I (a : A) : preserves I (ret a).
Proof. by intros s H. Qed.

Lemma preserves_throw {A} I msg : preserves I (@throw State A msg).
Proof. by intros s H. Qed.

Lemma preserves_bind {A B} I (m : M State A) (f : A → M State B) :
  preserves I m → (∀ a, preserves I (f a)) → preserves I (bind m f).
Proof.
  intros Hm Hf s H. unfold bind. specialize (Hm s H).
  destruct (m s) as [[a|msg] s']; simpl in *; [by apply Hf | done].
Qed.

Lemma preserves_try_catch {A} I (m : M State A) (h : string → M State A) :
  preserves I m → (∀ msg, preserves I (h msg)) → preserves I (try_catch m h).
Proof.
  intros Hm Hh s H. unfold try_catch. specialize (Hm s H).
  destruct (m s) as [[a|msg] s']; simpl in *; [done | by apply Hh].
Qed.

Lemma preserves_settle I out : preserves I (settle out).
Proof. destruct out; [apply preserves_throw | apply preserves_ret]. Qed.

Lemma preserves_settle_with {A} I (out : Result A) : preserves I (settle_with out).
Proof. destruct out; [apply preserves_ret | apply preserves_throw]. Qed.

Lemma preserves_modify f : neutral f → preserves session_inv (modify f).
Proof.
  intros Hf s H. unfold modify; simpl. destruct (Hf s) as (Hw & Hs & Hst).
  unfold session_inv in *. by rewrite Hw, Hs, Hst.
Qed.

Lemma preserves_emit ev : preserves session_inv (emit ev).
Proof. by apply preserves_modify. Qed.

Lemma preserves_setIsLoading v : preserves session_inv (setIsLoading v).
Proof. by apply preserves_modify. Qed.

Lemma preserves_setError v : preserves session_inv (setError v).
Proof. by apply preserves_modify. Qed.

Lemma preserves_setConnector v : preserves session_inv (setConnector v).
Proof. by apply preserves_modify. Qed.

Lemma preserves_update_conn c o : preserves session_inv (update_conn c o).
Proof. by apply preserves_modify. Qed.

Lemma preserves_getItem key : preserves session_inv (getItem key).
Proof.
  apply preserves_bind; [apply preserves_emit | intros _; by intros s H].
Qed.

Lemma preserves_setItem key value :
  key ≠ KEY_CONNECTED_WALLET_TYPE → preserves session_inv (setItem key value).
Proof.
  intros Hne. apply preserves_bind; [apply preserves_emit | intros _].
  apply preserves_modify. intros s; simpl. by rewrite lookup_insert_ne.
Qed.

Lemma preserves_removeItem key :
  key ≠ KEY_CONNECTED_WALLET_TYPE → preserves session_inv (removeItem key).
Proof.
  intros Hne. apply preserves_bind; [apply preserves_emit | intros _].
  apply preserves_modify. intros s; simpl. by rewrite lookup_delete_ne.
Qed.

Lemma preserves_newWalletConnect o : preserves session_inv (newWalletConnect o).
Proof. by intros s H. Qed.

Lemma preserves_conn_connected c : preserves session_inv (conn_connected c).
Proof. by intros s H. Qed.

Lemma preserves_conn_peerId c : preserves session_inv (conn_peerId c).
Proof. by intros s H. Qed.

Lemma preserves_payloadId : preserves session_inv payloadId.
Proof. by intros s H. Qed.

Lemma preserves_forget_session : preserves session_inv forget_session.
Proof. apply preserves_modify. intros s; simpl. by rewrite lookup_delete_ne. Qed.

Lemma preserves_record_session session : preserves session_inv (record_session session).
Proof. apply preserves_modify. intros s; simpl. by rewrite lookup_insert_ne. Qed.

Lemma preserves_killSession c out : preserves session_inv (killSession c out).
Proof.
  repeat (apply preserves_bind; [|intros ?]);
    auto using preserves_emit, preserves_settle, preserves_update_conn,
      preserves_forget_session.
Qed.

Lemma preserves_connect c out session : preserves session_inv (connect c out session).
Proof.
  repeat (apply preserves_bind; [|intros ?]);
    auto using preserves_emit, preserves_settle_with, preserves_update_conn,
      preserves_record_session.
Qed.

Lemma preserves_sendCustomRequest {R} c req (out : Result R) :
  preserves session_inv (sendCustomRequest c req out).
Proof.
  apply preserves_bind; [apply preserves_emit | intros _; apply preserves_settle_with].
Qed.

Lemma account_key_not_wallet_type peer : account_key peer ≠ KEY_CONNECTED_WALLET_TYPE.
Proof. discriminate. Qed.

(** The three calls that end a successful [initKepr] or
    [initWalletConnect]. *)
Lemma adopt_establishes (a : string) (sg : Signer) (s : State) :
  a ≠ "" →
  session_inv
    ((setWalletAddress (Some a) ;;
      setOfflineSigner (Some sg) ;;
      setItem KEY_CONNECTED_WALLET_TYPE (wallet_type_tag (signer_type sg)) ;;
      ret true) s).2.
Proof.
  intros Ha. unfold session_inv; simpl. split; [done|]. apply lookup_insert_eq.
Qed.

Lemma preserves_suggestChain k : preserves session_inv (suggestChain k).
Proof.
  destruct k as [k|]; [|apply preserves_ret]. unfold suggestChain.
  apply preserves_bind; [apply preserves_setIsLoading | intros _].
  apply preserves_bind; [|intros _; apply preserves_setIsLoading].
  apply preserves_try_catch; [|intros msg; apply preserves_setError].
  apply preserves_bind; [apply preserves_emit | intros _; apply preserves_settle].
Qed.

Lemma preserves_initKepr k : preserves session_inv (initKepr k).
Proof.
  destruct k as [k|]; [|apply preserves_throw]. unfold initKepr.
  do 5 (apply preserves_bind;
        [first [apply preserves_emit | apply preserves_settle] | intros _]).
  apply preserves_bind; [apply preserves_settle_with | intros accounts].
  destruct accounts as [|first rest]; [apply preserves_throw|].
  destruct (String.eqb_spec (address first) "") as [|Hne]; [apply preserves_ret|].
  intros s _. by apply (adopt_establishes _ (KeplrSigner PUBLIC_CHAIN_ID)).
Qed.

Lemma preserves_openConnector w : preserves session_inv (openConnector w).
Proof.
  unfold openConnector.
  apply preserves_bind; [apply preserves_newWalletConnect | intros first].
  apply preserves_bind; [apply preserves_setConnector | intros _].
  apply preserves_bind; [apply preserves_conn_connected | intros isConnected].
  apply preserves_bind; [|intros c].
  - destruct isConnected; [|apply preserves_ret].
    apply preserves_bind; [apply preserves_killSession | intros _].
    apply preserves_newWalletConnect.
  - apply preserves_bind; [apply preserves_emit | intros _; apply preserves_ret].
Qed.

Lemma preserves_first_account payload : preserves session_inv (first_account payload).
Proof.
  destruct payload as [|[|first rest]];
    [apply preserves_throw | apply preserves_ret | apply preserves_ret].
Qed.

Lemma preserves_obtainAccount w c : preserves session_inv (obtainAccount w c).
Proof.
  unfold obtainAccount.
  apply preserves_bind; [apply preserves_conn_connected | intros isConnected].
  destruct isConnected; simpl.
  - apply preserves_bind; [apply preserves_conn_peerId | intros peer].
    apply preserves_bind; [apply preserves_getItem | intros serialized].
    apply preserves_bind; [apply preserves_getItem | intros session].
    destruct (truthy serialized).
    + destruct (JSON_parse _); [apply preserves_ret | apply preserves_throw].
    + destruct (truthy session); [|apply preserves_ret].
      apply preserves_bind; [by apply preserves_removeItem | intros _; apply preserves_ret].
  - apply preserves_bind; [apply preserves_connect | intros _].
    apply preserves_bind; [apply preserves_payloadId | intros i].
    apply preserves_bind; [apply preserves_sendCustomRequest | intros payload].
    apply preserves_bind; [apply preserves_first_account | intros account].
    apply preserves_bind; [apply preserves_conn_peerId | intros peer].
    apply preserves_bind; [|intros _; apply preserves_ret].
    apply preserves_setItem, account_key_not_wallet_type.
Qed.

Lemma truthy_nonempty v : truthy v = true → default "" v ≠ "".
Proof.
  destruct v as [a|]; simpl; [|done].
  by destruct (String.eqb_spec a "").
Qed.

Lemma preserves_adoptAccount c account : preserves session_inv (adoptAccount c account).
Proof.
  destruct account as [account|]; [|apply preserves_ret]. unfold adoptAccount.
  destruct (truthy (bech32Address account)) eqn:Ha; simpl; [|apply preserves_ret].
  destruct (negb (truthy (algo account)) || negb (truthy (pubKey account)));
    [apply preserves_ret|].
  intros s _.
  apply (adopt_establishes _ (WalletConnectSigner c _)). by apply truthy_nonempty.
Qed.

Lemma preserves_initWalletConnect w : preserves session_inv (initWalletConnect w).
Proof.
  unfold initWalletConnect.
  apply preserves_bind; [apply preserves_openConnector | intros c].
  apply preserves_bind; [apply preserves_obtainAccount | intros account].
  apply preserves_adoptAccount.
Qed.

Lemma preserves_restoreSession e ty : preserves session_inv (restoreSession e ty).
Proof.
  unfold restoreSession. repeat case_decide;
    auto using preserves_initWalletConnect, preserves_initKepr, preserves_ret.
Qed.

Lemma preserves_setupAccount e : preserves session_inv (setupAccount e).
Proof.
  unfold setupAccount. destruct (keplr e); [|apply preserves_ret].
  apply preserves_bind; [apply preserves_getItem | intros ty].
  apply preserves_bind; [apply preserves_setIsLoading | intros _].
  apply preserves_bind; [|intros _; apply preserves_setIsLoading].
  apply preserves_try_catch; [apply preserves_restoreSession | intros msg].
  apply preserves_bind; [apply preserves_setError | intros _; apply preserves_ret].
Qed.

Lemma preserves_connectWalletConnect e : preserves session_inv (connectWalletConnect e).
Proof.
  unfold connectWalletConnect.
  apply preserves_bind; [apply preserves_setIsLoading | intros _].
  apply preserves_bind; [|intros _; apply preserves_setIsLoading].
  apply preserves_try_catch; [|intros msg; apply preserves_setError].
  apply preserves_bind; [apply preserves_initWalletConnect | intros _; apply preserves_ret].
Qed.

Lemma preserves_connectKeplr e : preserves session_inv (connectKeplr e).
Proof.
  unfold connectKeplr. destruct (keplr e) as [k|]; [|apply preserves_setError].
  apply preserves_bind; [apply preserves_setIsLoading | intros _].
  apply preserves_bind; [|intros _; apply preserves_setIsLoading].
  apply preserves_try_catch; [|intros msg; apply preserves_setError].
  apply preserves_bind; [apply preserves_suggestChain | intros _].
  apply preserves_bind; [apply preserves_initKepr | intros _; apply preserves_ret].
Qed.

Lemma preserves_keystoreChangeHandler e : preserves session_inv (keystoreChangeHandler e).
Proof.
  unfold keystoreChangeHandler.
  apply preserves_bind; [apply preserves_getItem | intros ty].
  case_decide; [|apply preserves_ret].
  apply preserves_try_catch; [|intros msg; apply preserves_ret].
  apply preserves_bind; [apply preserves_initKepr | intros _; apply preserves_ret].
Qed.

Lemma disconnect_establishes captured s : session_inv (disconnect captured s).2.
Proof.
  destruct (disconnect_run captured s) as (s' & -> & Hw & Hs & _); simpl.
  unfold session_inv. by rewrite Hw, Hs.
Qed.

Lemma reachable_session_inv s : reachable s → session_inv s.
Proof.
  induction 1 as [store|op e s Hr IH]; [done|].
  destruct op; simpl.
  - by apply preserves_connectKeplr.
  - by apply preserves_connectWalletConnect.
  - apply disconnect_establishes.
  - by apply preserves_setupAccount.
  - by apply preserves_keystoreChangeHandler.
  - apply disconnect_establishes.
Qed.

(** C2.  In every reachable state the wallet address is present exactly
    when the signer is, at most one backend has an active session, and an
    active session has a wallet address that is not the empty string. *)
Theorem single_active_session s :
  reachable s →
  (is_Some (walletAddress s) ↔ is_Some (offlineSigner s))
  ∧ (∀ t1 t2, session_active t1 s → session_active t2 s → t1 = t2)
  ∧ (∀ t, session_active t s → ∃ a, walletAddress s = Some a ∧ a ≠ "").
Proof.
  intros Hr. apply reachable_session_inv in Hr. unfold session_inv in Hr.
  repeat split.
  - intros [a Ha]. rewrite Ha in Hr. destruct (offlineSigner s); [by eexists | done].
  - intros [sg Hsg]. rewrite Hsg in Hr. destruct (walletAddress s); [by eexists | done].
  - intros t1 t2 (sg1 & H1 & <-) (sg2 & H2 & <-). congruence.
  - intros t (sg & Hsg & _). rewrite Hsg in Hr.
    destruct (walletAddress s) as [a|]; [|done]. exists a. by destruct Hr.
Qed.

(** ** Without the injected provider *)

(** C9.  When [window.keplr] is undefined, [connectKeplr] sets the error
    "Keplr is not available" and returns: nothing else changes, so no call
    leaves the component (no [enable], no account fetch) and the session
    state and the store are as they were. *)
Theorem connectKeplr_unavailable e s :
  keplr e = None →
  connectKeplr e s = (Ok tt, with_error (Some "Keplr is not available") s)
  ∧ trace (connectKeplr e s).2 = trace s
  ∧ storage (connectKeplr e s).2 = storage s
  ∧ walletAddress (connectKeplr e s).2 = walletAddress s
  ∧ offlineSigner (connectKeplr e s).2 = offlineSigner s
  ∧ connector (connectKeplr e s).2 = connector s
  ∧ error (connectKeplr e s).2 = Some "Keplr is not available".
Proof. intros H. unfold connectKeplr. by rewrite H. Qed.

(** C10.  When [window.keplr] is undefined, [setupAccount] returns at once:
    the state is untouched, and so is the trace, which would hold the read of
    the persisted wallet type and every call of a restoration.  Whatever the
    store and the relay hold, no session is restored. *)
Theorem setupAccount_without_keplr e s :
  keplr e = None →
  setupAccount e s = (Ok tt, s)
  ∧ trace (setupAccount e s).2 = trace s
  ∧ walletAddress (setupAccount e s).2 = walletAddress s
  ∧ offlineSigner (setupAccount e s).2 = offlineSigner s.
Proof.
  intros H. unfold setupAccount. by rewrite H.
Qed.

(** ** The relayed signer *)

(** C4.  A [signDirect] call on the relayed signer of a connected state
    sends one request, on the client object the signer holds: method
    [cosmos_signDirect], params the signer address and [SignDoc.toJSON] of
    the document, id the next [payloadId()].  When the request resolves, the
    call resolves with [SignDoc.fromJSON] of the response's [signed] and the
    response's [signature]. *)
Theorem signDirect_request_response s c account signerAddress signDoc res :
  offlineSigner s = Some (WalletConnectSigner c account) →
  let req := {| id := payloadId_at (payloads s);
                jsonrpc := "2.0";
                method := "cosmos_signDirect";
                params := [PString signerAddress; PSignDoc (SignDoc_toJSON signDoc)] |} in
  (signDirect c signerAddress signDoc (Ok res) s).1
    = Ok {| signed := SignDoc_fromJSON (signed_json res);
            signature := signature_json res |}
  ∧ trace (signDirect c signerAddress signDoc (Ok res) s).2
    = trace s ++ [EvSendCustomRequest c req]
  ∧ payloads (signDirect c signerAddress signDoc (Ok res) s).2 = S (payloads s).
Proof. intros _. by repeat split. Qed.

(** The request is sent before the answer is known, and a rejection of the
    request is what the call throws. *)
Lemma signDirect_rejected s c signerAddress signDoc msg :
  (signDirect c signerAddress signDoc (Throw msg) s).1 = Throw msg
  ∧ trace (signDirect c signerAddress signDoc (Throw msg) s).2
    = trace s ++ [EvSendCustomRequest c
                    (signDirectRequest (payloadId_at (payloads s)) signerAddress
                       (SignDoc_toJSON signDoc))].
Proof. by split. Qed.

(** Two calls in a row draw two ids in a row. *)
Lemma signDirect_ids_in_sequence s c a1 d1 out1 a2 d2 out2 :
  let s1 := (signDirect c a1 d1 out1 s).2 in
  let s2 := (signDirect c a2 d2 out2 s1).2 in
  trace s2
  = trace s ++ [EvSendCustomRequest c
                  (signDirectRequest (payloadId_at (payloads s)) a1 (SignDoc_toJSON d1));
                EvSendCustomRequest c
                  (signDirectRequest (payloadId_at (S (payloads s))) a2 (SignDoc_toJSON d2))].
Proof.
  destruct out1, out2; simpl; by rewrite <- app_assoc.
Qed.

(** ** Step by step through [initWalletConnect] *)

Lemma heap_lookup_new (l : list ConnObj) o c : c = length l → (l ++ [o]) !! c = Some o.
Proof. intros ->. by apply list_lookup_middle. Qed.

Lemma heap_insert_new (l : list ConnObj) o o' : <[length l := o']> (l ++ [o]) = l ++ [o'].
Proof. rewrite insert_app_r_alt by done. by rewrite Nat.sub_diag. Qed.

Ltac state_eq :=
  unfold with_walletAddress, with_offlineSigner, with_connector, with_isLoading,
    with_error, with_storage, with_conns, with_payloads, with_trace;
  simpl; rewrite <- ?app_assoc; simpl.

(** The first client is not connected: it is the one in use. *)
Lemma openConnector_fresh w s :
  connected (wc_first w) = false →
  openConnector w s
  = (Ok (length (conns s)),
     with_trace (trace s ++ [EvNewWalletConnect (length (conns s));
                             EvOnDisconnect (length (conns s))])
       (with_conns (conns s ++ [wc_first w])
          (with_connector (Some (length (conns s))) s))).
Proof.
  intros H. unfold openConnector, bind, newWalletConnect, setConnector, conn_connected,
    onDisconnect, emit, modify, ret; simpl.
  rewrite heap_lookup_new, H by done; simpl.
  unfold with_trace; simpl. by rewrite <- app_assoc.
Qed.

(** The first client is connected and its session is killed: a second
    client is built and is the one in use; the React state keeps the first. *)
Lemma openConnector_killed w s :
  connected (wc_first w) = true → wc_kill w = None →
  openConnector w s
  = (Ok (S (length (conns s))),
     with_trace (trace s ++ [EvNewWalletConnect (length (conns s));
                             EvKillSession (length (conns s));
                             EvNewWalletConnect (S (length (conns s)));
                             EvOnDisconnect (S (length (conns s)))])
       (with_conns ((conns s ++ [no_session]) ++ [no_session])
          (with_storage (delete KEY_WALLET_CONNECT (storage s))
             (with_connector (Some (length (conns s))) s)))).
Proof.
  intros H Hk. unfold openConnector, bind, newWalletConnect, setConnector, conn_connected,
    onDisconnect, killSession, forget_session, update_conn, bind, emit, modify, ret; simpl.
  rewrite heap_lookup_new, H, Hk by done; simpl.
  rewrite heap_insert_new, length_app, Nat.add_1_r; simpl.
  unfold with_trace; simpl. by rewrite <- !app_assoc.
Qed.

(** The kill is rejected: [initWalletConnect] ends there. *)
Lemma openConnector_kill_rejected w s msg :
  connected (wc_first w) = true → wc_kill w = Some msg →
  openConnector w s
  = (Throw msg,
     with_trace (trace s ++ [EvNewWalletConnect (length (conns s));
                             EvKillSession (length (conns s))])
       (with_conns (conns s ++ [wc_first w])
          (with_connector (Some (length (conns s))) s))).
Proof.
  intros H Hk. unfold openConnector, bind, newWalletConnect, setConnector, conn_connected,
    onDisconnect, killSession, forget_session, update_conn, bind, emit, modify, ret, throw;
    simpl.
  rewrite heap_lookup_new, H, Hk by done; simpl.
  unfold with_trace; simpl. by rewrite <- !app_assoc.
Qed.

(** The client in use is connected: the account comes from the store. *)
Lemma obtainAccount_restore w c o s :
  uses s c o → connected o = true →
  obtainAccount w c s
  = let reads := [EvGetItem (account_key (peerId o)); EvGetItem KEY_WALLET_CONNECT] in
    let cached := storage s !! account_key (peerId o) in
    if truthy cached then
      match JSON_parse (default "" cached) with
      | Some account => (Ok account, with_trace (trace s ++ reads) s)
      | None => (Throw "SyntaxError: Unexpected token in JSON",
                 with_trace (trace s ++ reads) s)
      end
    else if truthy (storage s !! KEY_WALLET_CONNECT) then
      (Ok None,
       with_storage (delete KEY_WALLET_CONNECT (storage s))
         (with_trace (trace s ++ reads ++ [EvRemoveItem KEY_WALLET_CONNECT]) s))
    else (Ok None, with_trace (trace s ++ reads) s).
Proof.
  unfold uses. intros Hc Ho.
  unfold obtainAccount, bind, conn_connected, conn_peerId, getItem, removeItem,
    bind, emit, modify, ret, throw; simpl.
  rewrite Hc, Ho; simpl. rewrite Hc.
  destruct (truthy (storage s !! account_key (peerId o))).
  - destruct (JSON_parse _); unfold with_trace; simpl; by rewrite <- !app_assoc.
  - destruct (truthy (storage s !! KEY_WALLET_CONNECT));
      unfold with_trace, with_storage; simpl; by rewrite <- !app_assoc.
Qed.

#[local] Arguments paired : simpl never.

(** The client in use is not connected: pairing, then the account request. *)
Lemma obtainAccount_pair w c o s :
  uses s c o → connected o = false →
  obtainAccount w c s
  = match wc_connect w with
    | Throw msg => (Throw msg, with_trace (trace s ++ [EvConnect c]) s)
    | Ok peer =>
        let s1 := paired c peer (wc_session w) s in
        match wc_accounts w with
        | Throw msg => (Throw msg, s1)
        | Ok NotIterable => (Throw "TypeError: object is not iterable", s1)
        | Ok (Accounts l) =>
            let account := mjoin (head l) in
            let text := JSON_stringify account in
            (Ok account,
             with_storage (<[account_key peer := text]> (storage s1))
               (with_trace (trace s1 ++ [EvSetItem (account_key peer) text]) s1))
        end
    end.
Proof.
  unfold uses. intros Hc Ho.
  unfold paired, obtainAccount, bind, conn_connected, conn_peerId, connect, record_session,
    payloadId, sendCustomRequest, setItem, update_conn, bind, emit, modify; simpl.
  rewrite Hc, Ho; simpl.
  destruct (wc_connect w) as [peer|msg]; simpl; [|done].
  destruct (wc_accounts w) as [[|l]|msg]; simpl; [by state_eq| |by state_eq].
  assert (Hlt : c < length (conns s)) by (by eapply lookup_lt_Some).
  destruct l as [|first rest]; simpl;
    rewrite list_lookup_insert_eq by done; by state_eq.
Qed.

Lemma adoptAccount_invalid c account s :
  valid_account account = false → adoptAccount c account s = (Ok false, s).
Proof.
  destruct account as [a|]; simpl; [|done]. unfold adoptAccount.
  destruct (truthy (bech32Address a)), (truthy (algo a)), (truthy (pubKey a)); done.
Qed.

Lemma adoptAccount_valid c account s :
  valid_account account = true →
  adoptAccount c account s
  = (Ok true,
     with_storage (<[KEY_CONNECTED_WALLET_TYPE := "likerland_app"]> (storage s))
       (with_trace (trace s ++ [EvSetItem KEY_CONNECTED_WALLET_TYPE "likerland_app"])
          (with_offlineSigner (Some (signer_of c account))
             (with_walletAddress (Some (default "" (account ≫= bech32Address))) s)))).
Proof.
  destruct account as [a|]; simpl; [|done]. unfold adoptAccount.
  destruct (truthy (bech32Address a)), (truthy (algo a)), (truthy (pubKey a)); done.
Qed.

Lemma openConnector_in_use w o s :
  client_in_use w = Some o →
  ∃ c s1, openConnector w s = (Ok c, s1) ∧ uses s1 c o ∧ same_session w s s1
          ∧ ∃ evs, trace s1 = trace s ++ evs ∧ Forall (λ ev, is_connect ev = false) evs.
Proof.
  unfold client_in_use, same_session, opened_store. intros H.
  destruct (connected (wc_first w)) eqn:Hf.
  - destruct (wc_kill w) eqn:Hk; [done|]. injection H as <-.
    rewrite openConnector_killed by done. eexists _, _. split; [done|].
    split; [|split; [done|]].
    + unfold uses; simpl. apply heap_lookup_new. rewrite length_app; simpl; lia.
    + eexists. split; [done|]. by repeat constructor.
  - injection H as <-. rewrite openConnector_fresh by done.
    eexists _, _. split; [done|]. split; [|split; [done|]].
    + unfold uses; simpl. by apply heap_lookup_new.
    + eexists. split; [done|]. by repeat constructor.
Qed.

(** *** The wrappers *)

Lemma connectWalletConnect_run e s :
  connectWalletConnect e s
  = (Ok tt,
     match initWalletConnect (wc e) (with_isLoading true s) with
     | (Ok _, s') => with_isLoading false s'
     | (Throw msg, s') => with_isLoading false (with_error (Some msg) s')
     end).
Proof.
  unfold connectWalletConnect, bind, try_catch, setIsLoading, setError, modify, ret; simpl.
  by destruct (initWalletConnect _ _) as [[r|msg] s'].
Qed.

Lemma setupAccount_run e k s :
  keplr e = Some k →
  setupAccount e s
  = (Ok tt,
     let fresh_mount := with_isLoading true
                 (with_trace (trace s ++ [EvGetItem KEY_CONNECTED_WALLET_TYPE]) s) in
     match restoreSession e (storage s !! KEY_CONNECTED_WALLET_TYPE) fresh_mount with
     | (Ok _, s') => with_isLoading false s'
     | (Throw msg, s') => with_isLoading false (with_error (Some msg) s')
     end).
Proof.
  intros Hk. unfold setupAccount. rewrite Hk.
  unfold bind, try_catch, getItem, setIsLoading, setError, bind, emit, modify, ret; simpl.
  by destruct (restoreSession _ _ _) as [[r|msg] s'].
Qed.

(** ** Kill before a new client *)

Lemma initWalletConnect_withClient w s :
  initWalletConnect w s
  = match openConnector w s with
    | (Ok c, s1) => withClient w c s1
    | (Throw msg, s1) => (Throw msg, s1)
    end.
Proof. reflexivity. Qed.

Ltac split_adopt :=
  match goal with
  | |- context [adoptAccount ?c ?a ?s] =>
      let Hv := fresh "Hv" in
      destruct (valid_account a) eqn:Hv;
      [rewrite (adoptAccount_valid c a s Hv) | rewrite (adoptAccount_invalid c a s Hv)]
  end.

Ltac trace_facts :=
  simpl; unfold emitted, paired; simpl; rewrite <- ?app_assoc; simpl;
  eexists; split; [reflexivity|];
  repeat split;
  try (repeat constructor; unfold about; simpl; by auto);
  try (intros; repeat constructor; done);
  try (unfold signer_on; simpl; by eauto).

(** Everything [withClient] does is on the client it is given, and it pairs
    only when that client says it is not connected. *)
Lemma withClient_spec w c o s :
  uses s c o →
  ∃ evs, emitted s (withClient w c s).2 evs
    ∧ Forall (about c) evs
    ∧ (connected o = true → Forall (λ ev, is_connect ev = false) evs)
    ∧ signer_on c s (withClient w c s).2.
Proof.
  intros Hu. unfold withClient, bind.
  destruct (connected o) eqn:Ho.
  - rewrite (obtainAccount_restore w c o s Hu Ho); simpl.
    destruct (truthy (storage s !! account_key (peerId o))).
    + destruct (JSON_parse _) as [account|]; [split_adopt|]; trace_facts.
    + destruct (truthy (storage s !! KEY_WALLET_CONNECT)); split_adopt; trace_facts.
  - rewrite (obtainAccount_pair w c o s Hu Ho); simpl.
    destruct (wc_connect w) as [peer|msg]; [|trace_facts].
    destruct (wc_accounts w) as [[|l]|msg]; [trace_facts| |trace_facts].
    simpl. split_adopt; trace_facts.
Qed.

(** On a client that is not connected, [withClient] starts with the
    pairing request and sends no other. *)
Lemma withClient_pairs w c o s :
  uses s c o → connected o = false →
  ∃ rest, emitted s (withClient w c s).2 (EvConnect c :: rest)
    ∧ Forall (about c) rest
    ∧ Forall (λ ev, is_connect ev = false) rest.
Proof.
  intros Hu Ho. unfold withClient, bind.
  rewrite (obtainAccount_pair w c o s Hu Ho); simpl.
  destruct (wc_connect w) as [peer|msg]; [|trace_facts].
  destruct (wc_accounts w) as [[|l]|msg]; [trace_facts| |trace_facts].
  simpl. split_adopt; trace_facts.
Qed.

(** C7.  In a relayed connect whose first client object reports itself
    connected, that client's session is killed right after the client is
    built, and only then is a second client built; everything that follows
    (listener, pairing, requests, the signer) is on the second client and
    nothing is on the first again.  The pairing request is the first call
    made on the second client after the listener, and the only pairing
    request of the connect.  When the kill is rejected nothing follows
    it. *)
Theorem kill_before_new_client e s :
  connected (wc_first (wc e)) = true →
  let c1 := length (conns s) in
  let s' := (connectWalletConnect e s).2 in
  ∃ rest,
    emitted s s' (EvNewWalletConnect c1 :: EvKillSession c1 :: rest)
    ∧ Forall (λ ev, event_conn ev ≠ Some c1) rest
    ∧ match wc_kill (wc e) with
      | Some _ => rest = []
      | None =>
          ∃ rest', rest = EvNewWalletConnect (S c1) :: EvOnDisconnect (S c1)
                          :: EvConnect (S c1) :: rest'
            ∧ Forall (about (S c1)) rest'
            ∧ Forall (λ ev, is_connect ev = false) rest'
      end
    ∧ signer_on (S c1) s s'.
Proof.
  intros Hf c1 s'. subst c1 s'. rewrite connectWalletConnect_run; simpl.
  rewrite initWalletConnect_withClient.
  destruct (wc_kill (wc e)) as [msg|] eqn:Hk.
  - rewrite (openConnector_kill_rejected _ _ msg) by done. simpl.
    exists []. repeat split; [constructor | by left].
  - rewrite openConnector_killed by done. simpl.
    match goal with |- context [withClient _ _ ?s1] => remember s1 as s1' eqn:Hs1 end.
    assert (Hu : uses s1' (S (length (conns s))) no_session).
    { unfold uses. rewrite Hs1; simpl.
      apply heap_lookup_new. rewrite length_app; simpl. lia. }
    destruct (withClient_spec (wc e) _ _ s1' Hu) as (evs & Hev & _ & _ & Hsg).
    destruct (withClient_pairs (wc e) _ _ s1' Hu eq_refl) as (rest' & Hev' & Hab & Hnc).
    unfold emitted in Hev, Hev'. rewrite Hev' in Hev. apply app_inv_head in Hev.
    subst evs.
    assert (Htr : trace s1' = trace s ++ [EvNewWalletConnect (length (conns s));
                                          EvKillSession (length (conns s));
                                          EvNewWalletConnect (S (length (conns s)));
                                          EvOnDisconnect (S (length (conns s)))])
      by (by rewrite Hs1).
    assert (Hsg1 : offlineSigner s1' = offlineSigner s) by (by rewrite Hs1).
    unfold emitted, signer_on in *. rewrite Htr, Hsg1 in *. clear Hs1 Htr Hsg1 Hu.
    exists (EvNewWalletConnect (S (length (conns s)))
            :: EvOnDisconnect (S (length (conns s)))
            :: EvConnect (S (length (conns s))) :: rest').
    assert (Hne : Forall (λ ev, event_conn ev ≠ Some (length (conns s))) rest').
    { eapply Forall_impl; [exact Hab|]. intros ev [H|H]; rewrite H; [done|].
      intros [=]. lia. }
    assert (Hcons : ∀ n : nat, Some (S n) ≠ Some n) by (intros n [=]; lia).
    destruct (withClient (wc e) (S (length (conns s))) s1') as [[r|msg] s2];
      simpl in *; rewrite Hev'; rewrite <- app_assoc; simpl;
      (split; [done|]);
      (split; [constructor; [apply Hcons|]; constructor; [apply Hcons|];
               constructor; [apply Hcons | exact Hne]|]);
      (split; [by eexists|]); done.
Qed.

(** ** Failed attempts *)

Ltac frame_facts :=
  simpl; intros; unfold unchanged_session, paired; simpl;
  rewrite ?lookup_insert_ne by first [apply account_key_not_wallet_type | done];
  rewrite ?lookup_delete_ne by done;
  try done.

Lemma withClient_failure w c o s :
  uses s c o →
  (withClient w c s).1 ≠ Ok true →
  unchanged_session s (withClient w c s).2.
Proof.
  intros Hu. unfold withClient, bind.
  destruct (connected o) eqn:Ho.
  - rewrite (obtainAccount_restore w c o s Hu Ho); simpl.
    destruct (truthy (storage s !! account_key (peerId o))).
    + destruct (JSON_parse _) as [account|]; [split_adopt|]; frame_facts.
    + destruct (truthy (storage s !! KEY_WALLET_CONNECT)); split_adopt; frame_facts.
  - rewrite (obtainAccount_pair w c o s Hu Ho); simpl.
    destruct (wc_connect w) as [peer|msg]; [|frame_facts].
    destruct (wc_accounts w) as [[|l]|msg]; [frame_facts| |frame_facts].
    simpl. split_adopt; frame_facts.
Qed.

Lemma initWalletConnect_failure w s :
  (initWalletConnect w s).1 ≠ Ok true →
  unchanged_session s (initWalletConnect w s).2.
Proof.
  rewrite initWalletConnect_withClient.
  destruct (client_in_use w) as [o|] eqn:Hc.
  - destruct (openConnector_in_use w o s Hc)
      as (c & s1 & -> & Hu & (Hw & Hs & Hst & He & _) & _).
    intros Hf. destruct (withClient_failure w c o s1 Hu Hf) as (H1 & H2 & H3 & H4).
    unfold unchanged_session. rewrite H1, H2, H3, H4, Hw, Hs, Hst, He.
    do 3 (split; [done|]). unfold opened_store.
    destruct (connected (wc_first w)); [by rewrite lookup_delete_ne | done].
  - unfold client_in_use in Hc.
    destruct (connected (wc_first w)) eqn:Hf; [|done].
    destruct (wc_kill w) as [msg|] eqn:Hk; [|done].
    by rewrite (openConnector_kill_rejected w s msg).
Qed.

Lemma initKepr_failure k s :
  (initKepr k s).1 ≠ Ok true →
  unchanged_session s (initKepr k s).2.
Proof.
  destruct k as [k|]; [|done].
  unfold initKepr, bind, emit, modify, settle, settle_with, ret, throw; simpl.
  destruct (kp_enable k); [done|]; simpl.
  destruct (kp_signer k); [done|]; simpl.
  destruct (kp_accounts k) as [[|first rest]|msg]; [done| |done]; simpl.
  by destruct (String.eqb (address first) "").
Qed.

Lemma restoreSession_failure e ty s :
  (restoreSession e ty s).1 ≠ Ok true →
  unchanged_session s (restoreSession e ty s).2.
Proof.
  unfold restoreSession. repeat case_decide;
    [apply initWalletConnect_failure | apply initKepr_failure | done].
Qed.

(** ** Startup *)

(** The trace only grows. *)
Lemma initWalletConnect_extends w s :
  ∃ evs, trace (initWalletConnect w s).2 = trace s ++ evs.
Proof.
  rewrite initWalletConnect_withClient.
  destruct (client_in_use w) as [o|] eqn:Hc.
  - destruct (openConnector_in_use w o s Hc) as (c & s1 & -> & Hu & _ & evs1 & Hevs1 & _).
    destruct (withClient_spec w c o s1 Hu) as (evs & Hev & _).
    exists (evs1 ++ evs). unfold emitted in Hev. by rewrite Hev, Hevs1, app_assoc.
  - unfold client_in_use in Hc.
    destruct (connected (wc_first w)) eqn:Hf; [|done].
    destruct (wc_kill w) as [msg|] eqn:Hk; [|done].
    rewrite (openConnector_kill_rejected w s msg) by done. by eexists.
Qed.

Lemma initKepr_extends k s :
  ∃ evs, trace (initKepr k s).2 = trace s ++ evs.
Proof.
  destruct k as [k|]; [|by exists []; rewrite app_nil_r].
  unfold initKepr, bind, setItem, bind, emit, modify, settle, settle_with, ret, throw; simpl.
  destruct (kp_enable k); simpl; [by eexists|].
  destruct (kp_signer k); simpl; [rewrite <- app_assoc; by eexists|].
  destruct (kp_accounts k) as [[|first rest]|msg]; simpl;
    try (rewrite <- !app_assoc; by eexists).
  destruct (String.eqb (address first) ""); simpl; rewrite <- !app_assoc; by eexists.
Qed.

Lemma restoreSession_extends e ty s :
  ∃ evs, trace (restoreSession e ty s).2 = trace s ++ evs.
Proof.
  unfold restoreSession. repeat case_decide;
    [apply initWalletConnect_extends | apply initKepr_extends |].
  exists []. by rewrite app_nil_r.
Qed.

(** C3, as the code has it.  With [window.keplr] defined, [setupAccount]
    first reads the persisted wallet type and runs the matching init function
    ([initWalletConnect] for "likerland_app", [initKepr] for "keplr").  It
    never throws and ends with [isLoading] false.  When the restoration does
    not succeed, address and signer are as before (absent after a fresh
    mount) and so is the persisted wallet type; an exception of the
    restoration is caught and its message becomes the [error] of the
    provider, while a restoration that returns [false] leaves [error] as it
    was. *)
Theorem setupAccount_restoration e k s :
  keplr e = Some k →
  let ty := storage s !! KEY_CONNECTED_WALLET_TYPE in
  let attempt := restoreSession e ty (at_try s) in
  let s' := (setupAccount e s).2 in
  (setupAccount e s).1 = Ok tt
  ∧ (ty = Some "likerland_app" → attempt = initWalletConnect (wc e) (at_try s))
  ∧ (ty = Some "keplr" → attempt = initKepr (keplr e) (at_try s))
  ∧ (∃ evs, trace s' = trace s ++ EvGetItem KEY_CONNECTED_WALLET_TYPE :: evs)
  ∧ trace s' = trace attempt.2
  ∧ isLoading s' = false
  ∧ match attempt.1 with
    | Ok true =>
        walletAddress s' = walletAddress attempt.2
        ∧ offlineSigner s' = offlineSigner attempt.2
    | Ok false =>
        walletAddress s' = walletAddress s ∧ offlineSigner s' = offlineSigner s
        ∧ storage s' !! KEY_CONNECTED_WALLET_TYPE = ty
        ∧ error s' = error s
    | Throw msg =>
        walletAddress s' = walletAddress s ∧ offlineSigner s' = offlineSigner s
        ∧ storage s' !! KEY_CONNECTED_WALLET_TYPE = ty
        ∧ error s' = Some msg
    end.
Proof.
  intros Hk ty attempt s'. subst s'. rewrite (setupAccount_run e k s Hk); simpl.
  fold (at_try s). fold ty. fold attempt.
  split; [done|].
  split; [intros H; unfold attempt, restoreSession; by rewrite H|].
  split; [intros H; unfold attempt, restoreSession; by rewrite H|].
  destruct (restoreSession_extends e ty (at_try s)) as (evs & Hevs).
  pose proof (restoreSession_failure e ty (at_try s)) as Hfail.
  fold attempt in Hevs, Hfail.
  destruct attempt as [[[|]|msg] s1]; simpl in *.
  - split; [exists evs; by rewrite Hevs, <- app_assoc|]. done.
  - destruct Hfail as (H1 & H2 & H3 & H4); [done|].
    split; [exists evs; by rewrite Hevs, <- app_assoc|]. done.
  - destruct Hfail as (H1 & H2 & H3 & H4); [done|].
    split; [exists evs; by rewrite Hevs, <- app_assoc|]. done.
Qed.

(** ** Restoration of a relayed session *)

(** The client [initWalletConnect] goes on with never has a session: it is
    a first client that found none, or the client built after the kill. *)
Lemma client_in_use_no_session w o : client_in_use w = Some o → connected o = false.
Proof.
  unfold client_in_use. destruct (connected (wc_first w)) eqn:Hf.
  - destruct (wc_kill w); [done|]. by intros [= <-].
  - by intros [= <-].
Qed.

(** So the branch of [initWalletConnect] that reads the cached account and
    removes an orphan session never runs: the function reads nothing from
    the store and removes nothing through [AsyncStorage]. *)
Lemma initWalletConnect_restores_nothing w s :
  ∃ evs, trace (initWalletConnect w s).2 = trace s ++ evs
         ∧ Forall (λ ev, restores ev = false) evs.
Proof.
  rewrite initWalletConnect_withClient.
  destruct (client_in_use w) as [o|] eqn:Hc.
  - pose proof (client_in_use_no_session w o Hc) as Ho.
    unfold client_in_use in Hc.
    assert (Hopen : ∃ c s1 evs1, openConnector w s = (Ok c, s1) ∧ uses s1 c o
                      ∧ trace s1 = trace s ++ evs1
                      ∧ Forall (λ ev, restores ev = false) evs1).
    { destruct (connected (wc_first w)) eqn:Hf.
      - destruct (wc_kill w) eqn:Hk; [done|]. injection Hc as <-.
        rewrite openConnector_killed by done. eexists _, _, _.
        split; [done|]. split; [|split; [done | by repeat constructor]].
        unfold uses; simpl. apply heap_lookup_new. rewrite length_app; simpl; lia.
      - injection Hc as <-. rewrite openConnector_fresh by done. eexists _, _, _.
        split; [done|]. split; [|split; [done | by repeat constructor]].
        unfold uses; simpl. by apply heap_lookup_new. }
    destruct Hopen as (c & s1 & evs1 & -> & Hu & Ht1 & Hf1).
    unfold withClient, bind. rewrite (obtainAccount_pair w c o s1 Hu Ho).
    destruct (wc_connect w) as [peer|msg]; simpl.
    + destruct (wc_accounts w) as [[|l]|msg]; simpl;
        try split_adopt; unfold paired; simpl; rewrite Ht1, <- ?app_assoc; simpl;
        (eexists; split; [reflexivity|]);
        (apply Forall_app; split; [done | by repeat constructor]).
    + rewrite Ht1, <- app_assoc. eexists; split; [reflexivity|].
      apply Forall_app; split; [done | by repeat constructor].
  - unfold client_in_use in Hc.
    destruct (connected (wc_first w)) eqn:Hf; [|done].
    destruct (wc_kill w) as [msg|] eqn:Hk; [|done].
    rewrite (openConnector_kill_rejected w s msg) by done. simpl.
    eexists; split; [reflexivity | by repeat constructor].
Qed.

(** A session that is found live is killed, and a pairing request follows
    on a new client, whatever the store holds. *)
Lemma live_session_is_killed_and_paired w s :
  connected (wc_first w) = true → wc_kill w = None →
  ∃ evs, trace (initWalletConnect w s).2
         = trace s ++ [EvNewWalletConnect (length (conns s));
                       EvKillSession (length (conns s));
                       EvNewWalletConnect (S (length (conns s)));
                       EvOnDisconnect (S (length (conns s)));
                       EvConnect (S (length (conns s)))] ++ evs.
Proof.
  intros Hf Hk. rewrite initWalletConnect_withClient.
  rewrite openConnector_killed by done.
  unfold withClient, bind.
  erewrite obtainAccount_pair; [|unfold uses; simpl; apply heap_lookup_new;
                                 rewrite length_app; simpl; lia | done].
  destruct (wc_connect w) as [peer|msg]; simpl; [|rewrite <- app_assoc; by exists []].
  destruct (wc_accounts w) as [[|l]|msg]; simpl;
    try (unfold paired; simpl; rewrite <- !app_assoc; simpl; by eexists).
  split_adopt; unfold paired; simpl; rewrite <- !app_assoc; simpl; by eexists.
Qed.

(** ** A handshake answer that is not a valid account *)

(** C5, as the code has it.  In a relayed connect that pairs (the client in
    use is not connected and the peer approves) and gets an invalid answer to
    the account request, no session is created: address, signer and
    persisted wallet type are as before and [isLoading] ends false.  An
    answer that cannot be destructured throws, and the message becomes the
    [error]; otherwise the first element has already been written to the
    account cache of the peer when it is found invalid, the function returns
    [false] and [error] is left as it was. *)
Theorem invalid_handshake_account e o peer payload s :
  client_in_use (wc e) = Some o →
  connected o = false →
  wc_connect (wc e) = Ok peer →
  wc_accounts (wc e) = Ok payload →
  invalid_payload payload = true →
  let s' := (connectWalletConnect e s).2 in
  walletAddress s' = walletAddress s
  ∧ offlineSigner s' = offlineSigner s
  ∧ storage s' !! KEY_CONNECTED_WALLET_TYPE = storage s !! KEY_CONNECTED_WALLET_TYPE
  ∧ isLoading s' = false
  ∧ let recorded := <[KEY_WALLET_CONNECT := wc_session (wc e)]> (storage s) in
    match payload with
    | NotIterable =>
        error s' = Some "TypeError: object is not iterable"
        ∧ storage s' = recorded
    | Accounts l =>
        error s' = error s
        ∧ storage s' = <[account_key peer := JSON_stringify (mjoin (head l))]> recorded
    end.
Proof.
  intros Hc Ho Hconn Hacc Hinv s'. subst s'.
  rewrite connectWalletConnect_run, initWalletConnect_withClient.
  destruct (openConnector_in_use (wc e) o (with_isLoading true s) Hc)
    as (c & s1 & -> & Hu & (Hw & Hs & Hst & He & _) & _).
  simpl in *. unfold withClient, bind.
  rewrite (obtainAccount_pair (wc e) c o s1 Hu Ho), Hconn, Hacc.
  assert (Hrec : <[KEY_WALLET_CONNECT := wc_session (wc e)]> (storage s1)
                 = <[KEY_WALLET_CONNECT := wc_session (wc e)]> (storage s)).
  { rewrite Hst. unfold opened_store.
    destruct (connected (wc_first (wc e))); [apply insert_delete_eq | done]. }
  assert (Hty : storage s1 !! KEY_CONNECTED_WALLET_TYPE
                = storage s !! KEY_CONNECTED_WALLET_TYPE).
  { rewrite Hst. unfold opened_store.
    destruct (connected (wc_first (wc e))); [by rewrite lookup_delete_ne | done]. }
  destruct payload as [|l]; unfold paired; simpl in *.
  - rewrite Hw, Hs. rewrite lookup_insert_ne, Hty by done. by rewrite Hrec.
  - rewrite adoptAccount_invalid by (by apply negb_true_iff); simpl.
    rewrite Hw, Hs, He.
    rewrite lookup_insert_ne by apply account_key_not_wallet_type.
    rewrite lookup_insert_ne, Hty by done. by rewrite Hrec.
Qed.

End Facts.

(** * Further properties of the wallet provider *)

Section WalletFacts.

Context {P : Platform}.
Local Open Scope async_scope.

Ltac run_ops :=
  unfold keystoreChangeHandler, connectKeplr, suggestChain, initKepr, getItem, setItem,
    setWalletAddress, setOfflineSigner, setIsLoading, setError, bind, try_catch, emit,
    modify, settle, settle_with, ret, throw; simpl.

Ltac same_state :=
  unfold with_walletAddress, with_offlineSigner, with_connector, with_isLoading,
    with_error, with_storage, with_conns, with_payloads, with_trace;
  simpl; rewrite <- ?app_assoc; simpl.

(** ** Connecting through the injected provider *)

(** X1.  When the provider enables the chain, hands out a signer and lists
    accounts of which the first has a non-empty address, [connectKeplr] ends
    connected to that address with the provider's signer, "keplr" persisted
    as wallet type and [isLoading] false.  A rejected
    [experimentalSuggestChain] does not stop it: its message becomes the
    [error] and the connection goes on; an [error] from before is kept. *)
Theorem connectKeplr_connects e k first rest s :
  keplr e = Some k →
  kp_enable k = None →
  kp_signer k = None →
  kp_accounts k = Ok (first :: rest) →
  address first ≠ "" →
  let s' := (connectKeplr e s).2 in
  walletAddress s' = Some (address first)
  ∧ offlineSigner s' = Some (KeplrSigner PUBLIC_CHAIN_ID)
  ∧ storage s' = <[KEY_CONNECTED_WALLET_TYPE := "keplr"]> (storage s)
  ∧ isLoading s' = false
  ∧ error s' = match kp_suggest k with
               | Some msg => Some msg
               | None => error s
               end
  ∧ trace s' = trace s ++ EvSuggestChain getChainInfo :: keplr_calls
                 ++ [EvSetItem KEY_CONNECTED_WALLET_TYPE "keplr"].
Proof.
  intros Hk He Hs Ha Hne s'. subst s'. unfold connectKeplr. rewrite Hk. run_ops.
  rewrite He, Hs, Ha; simpl.
  destruct (String.eqb_spec (address first) "") as [|_]; [done|].
  destruct (kp_suggest k); simpl; same_state; done.
Qed.

(** X2.  When the provider rejects [enable], [connectKeplr] stops there: no
    signer is asked for and no account is fetched, address, signer and store
    are as before, [isLoading] ends false and the [error] is the message of
    the rejection, also when the chain suggestion had failed before. *)
Theorem connectKeplr_enable_rejected e k msg s :
  keplr e = Some k →
  kp_enable k = Some msg →
  let s' := (connectKeplr e s).2 in
  walletAddress s' = walletAddress s
  ∧ offlineSigner s' = offlineSigner s
  ∧ storage s' = storage s
  ∧ isLoading s' = false
  ∧ error s' = Some msg
  ∧ trace s' = trace s ++ [EvSuggestChain getChainInfo; EvKeplrEnable PUBLIC_CHAIN_ID].
Proof.
  intros Hk He s'. subst s'. unfold connectKeplr. rewrite Hk. run_ops.
  rewrite He; simpl.
  destruct (kp_suggest k); simpl; same_state; done.
Qed.

(** X3.  When the provider lists no usable account, no session is created
    and nothing is persisted.  An empty list makes the destructuring throw,
    and that message is the [error]; a first account with an empty address
    makes [initKepr] return [false], and then no error is set by it: the
    [error] is the one of the chain suggestion, or the one from before. *)
Theorem connectKeplr_no_account e k accounts s :
  keplr e = Some k →
  kp_enable k = None →
  kp_signer k = None →
  kp_accounts k = Ok accounts →
  (accounts = [] ∨ ∃ first rest, accounts = first :: rest ∧ address first = "") →
  let s' := (connectKeplr e s).2 in
  walletAddress s' = walletAddress s
  ∧ offlineSigner s' = offlineSigner s
  ∧ storage s' = storage s
  ∧ isLoading s' = false
  ∧ error s' = match accounts with
               | [] => Some "TypeError: Cannot destructure property 'address' of undefined"
               | _ :: _ =>
                   match kp_suggest k with
                   | Some msg => Some msg
                   | None => error s
                   end
               end.
Proof.
  intros Hk He Hs Ha Hacc s'. subst s'. unfold connectKeplr. rewrite Hk. run_ops.
  rewrite He, Hs, Ha; simpl.
  destruct Hacc as [->|(first & rest & -> & Hempty)]; simpl.
  - destruct (kp_suggest k); simpl; done.
  - rewrite Hempty; simpl. destruct (kp_suggest k); simpl; done.
Qed.

(** ** A change of the provider's key store *)

Lemma keystoreChangeHandler_run e s :
  keystoreChangeHandler e s
  = if decide (storage s !! KEY_CONNECTED_WALLET_TYPE = Some "keplr") then
      (Ok tt,
       (initKepr (keplr e)
          (with_trace (trace s ++ [EvGetItem KEY_CONNECTED_WALLET_TYPE]) s)).2)
    else (Ok tt, with_trace (trace s ++ [EvGetItem KEY_CONNECTED_WALLET_TYPE]) s).
Proof.
  unfold keystoreChangeHandler, getItem, bind at 1 2 3, emit, modify; simpl.
  case_decide; [|done].
  unfold try_catch, bind, ret. by destruct (initKepr _ _) as [[r|msg] s1].
Qed.

(** X4.  A [keplr_keystorechange] event while "keplr" is persisted re-runs
    [initKepr]: when the provider answers with a first account of non-empty
    address, the wallet address becomes that address and the signer is the
    provider's; the store, [isLoading] and [error] are as before. *)
Theorem keystoreChange_updates_address e k first rest s :
  storage s !! KEY_CONNECTED_WALLET_TYPE = Some "keplr" →
  keplr e = Some k →
  kp_enable k = None →
  kp_signer k = None →
  kp_accounts k = Ok (first :: rest) →
  address first ≠ "" →
  let s' := (keystoreChangeHandler e s).2 in
  walletAddress s' = Some (address first)
  ∧ offlineSigner s' = Some (KeplrSigner PUBLIC_CHAIN_ID)
  ∧ storage s' = storage s
  ∧ isLoading s' = isLoading s
  ∧ error s' = error s.
Proof.
  intros Hty Hk He Hs Ha Hne s'. subst s'. run_ops.
  rewrite Hty, Hk; simpl. rewrite He, Hs, Ha; simpl.
  destruct (String.eqb_spec (address first) "") as [|_]; [done|]. simpl.
  repeat split. by apply insert_id.
Qed.

(** X5.  The handler drops the promise of [initKepr]: when the re-run does
    not succeed (a rejection, no account, or no provider at all), the handler
    still completes, and address, signer, [error] and persisted wallet type
    are the ones from before the event. *)
Theorem keystoreChange_failure_is_silent e s :
  (initKepr (keplr e)
     (with_trace (trace s ++ [EvGetItem KEY_CONNECTED_WALLET_TYPE]) s)).1 ≠ Ok true →
  (keystoreChangeHandler e s).1 = Ok tt
  ∧ unchanged_session s (keystoreChangeHandler e s).2.
Proof.
  intros Hfail. rewrite keystoreChangeHandler_run.
  case_decide as Hty; [|done].
  pose proof (initKepr_failure (keplr e) _ Hfail) as Hsame.
  destruct (initKepr _ _) as [[r|msg] s1]; simpl in *; done.
Qed.

(** ** What an operation does to the session *)

Lemma initKepr_step k s : session_step s (initKepr k s).2.
Proof.
  destruct k as [k|]; [|by left]. run_ops.
  destruct (kp_enable k); simpl; [by left|].
  destruct (kp_signer k); simpl; [by left|].
  destruct (kp_accounts k) as [[|first rest]|msg]; simpl; try (by left).
  destruct (String.eqb_spec (address first) "") as [|Hne]; simpl; [by left|].
  right; right; left. by exists (address first).
Qed.

Lemma initWalletConnect_step w s : session_step s (initWalletConnect w s).2.
Proof.
  destruct (initWalletConnect w s).1 as [[|]|msg] eqn:Hr.
  - rewrite initWalletConnect_withClient in *.
    destruct (client_in_use w) as [o|] eqn:Hc.
    + destruct (openConnector_in_use w o s Hc) as (c & s1 & Ho & Hu & Hsame & _).
      rewrite Ho in *. clear Ho Hsame.
      right; right; right. exists c. revert Hr. unfold withClient, bind.
      destruct (obtainAccount w c s1) as [[account|msg] s2]; simpl; [|done].
      destruct (valid_account account) eqn:Hv.
      * rewrite adoptAccount_valid by done. intros _. by exists account.
      * by rewrite adoptAccount_invalid by done.
    + unfold client_in_use in Hc.
      destruct (connected (wc_first w)) eqn:Hf; [|done].
      destruct (wc_kill w) as [msg|] eqn:Hk; [|done].
      by rewrite (openConnector_kill_rejected w s msg) in Hr.
  - left. destruct (initWalletConnect_failure w s) as (Hw & Hs & _); [|done].
    by rewrite Hr.
  - left. destruct (initWalletConnect_failure w s) as (Hw & Hs & _); [|done].
    by rewrite Hr.
Qed.

Lemma session_step_frame s0 s s' s1 :
  walletAddress s = walletAddress s0 → offlineSigner s = offlineSigner s0 →
  walletAddress s1 = walletAddress s' → offlineSigner s1 = offlineSigner s' →
  session_step s s' → session_step s0 s1.
Proof. unfold session_step. intros <- <- -> ->. done. Qed.

Lemma suggestChain_session k s :
  walletAddress (suggestChain k s).2 = walletAddress s
  ∧ offlineSigner (suggestChain k s).2 = offlineSigner s.
Proof. destruct k as [k|]; [|done]. run_ops. by destruct (kp_suggest k). Qed.

Lemma connect_body_run (suggest : M State unit) (init : M State bool) s :
  (∀ s0, (suggest s0).1 = Ok tt) →
  (setIsLoading true ;;
   try_catch (suggest ;; init ;; ret tt) (λ msg, setError (Some msg)) ;;
   setIsLoading false) s
  = (Ok tt,
     with_isLoading false
       match init (suggest (with_isLoading true s)).2 with
       | (Ok _, s1) => s1
       | (Throw msg, s1) => with_error (Some msg) s1
       end).
Proof.
  intros Hsug. unfold bind, try_catch, setIsLoading, setError, modify, ret; simpl.
  specialize (Hsug (with_isLoading true s)).
  destruct (suggest (with_isLoading true s)) as [[[]|msg] s1]; simpl in *; [|done].
  by destruct (init s1) as [[r|msg] s2].
Qed.

Lemma connectKeplr_run e k s :
  keplr e = Some k →
  connectKeplr e s
  = (Ok tt,
     with_isLoading false
       match initKepr (keplr e) (suggestChain (keplr e) (with_isLoading true s)).2 with
       | (Ok _, s1) => s1
       | (Throw msg, s1) => with_error (Some msg) s1
       end).
Proof.
  intros Hk. unfold connectKeplr. rewrite Hk.
  apply (connect_body_run (suggestChain (Some k)) (initKepr (Some k))).
  intros s0. run_ops. by destruct (kp_suggest k).
Qed.

Lemma run_op_session_step op e s : session_step s (run_op op e s).
Proof.
  destruct op; simpl.
  - destruct (keplr e) as [k|] eqn:Hk.
    + rewrite (connectKeplr_run e k s Hk); simpl.
      destruct (suggestChain_session (keplr e) (with_isLoading true s)) as (Hw & Hs).
      pose proof (initKepr_step (keplr e)
                    (suggestChain (keplr e) (with_isLoading true s)).2) as Hstep.
      destruct (initKepr _ _) as [[r|msg] s1]; simpl in *;
        (eapply session_step_frame; [| | | |exact Hstep]); done.
    + unfold connectKeplr. rewrite Hk. by left.
  - rewrite connectWalletConnect_run; simpl.
    pose proof (initWalletConnect_step (wc e) (with_isLoading true s)) as Hstep.
    destruct (initWalletConnect _ _) as [[r|msg] s1]; simpl in *;
      (eapply session_step_frame; [| | | |exact Hstep]); done.
  - destruct (disconnect_run (connector s) s) as (s' & -> & Hw & Hs & _).
    right; left. done.
  - destruct (keplr e) as [k|] eqn:Hk.
    + rewrite (setupAccount_run e k s Hk); simpl.
      match goal with |- context [restoreSession e ?ty ?s0] =>
        assert (Hstep : session_step s0 (restoreSession e ty s0).2)
      end.
      { unfold restoreSession. repeat case_decide;
          [apply initWalletConnect_step | apply initKepr_step | by left]. }
      destruct (restoreSession _ _ _) as [[r|msg] s1]; simpl in *;
        (eapply session_step_frame; [| | | |exact Hstep]); done.
    + unfold setupAccount. rewrite Hk. by left.
  - rewrite keystoreChangeHandler_run. case_decide; simpl; [|by left].
    pose proof (initKepr_step (keplr e)
      (with_trace (trace s ++ [EvGetItem KEY_CONNECTED_WALLET_TYPE]) s)) as Hstep.
    eapply session_step_frame; [| | | |exact Hstep]; done.
  - destruct (disconnect_run captured s) as (s' & -> & Hw & Hs & _).
    right; left. done.
Qed.

(** X6.  Whatever the outside world answers, an operation of the provider
    does one of four things to the session: it keeps address and signer, it
    clears both, it sets a non-empty address with the injected provider's
    signer, or it sets the address of a valid relayed account with the signer
    built from that account. *)
Theorem operation_session_step op e s : session_step s (run_op op e s).
Proof. apply run_op_session_step. Qed.

Lemma session_step_matches s s' :
  signer_matches_address s → session_step s s' → signer_matches_address s'.
Proof.
  unfold signer_matches_address.
  intros H [(Hw & Hs)|[(Hw & Hs)|[(a & Ha & Hw & Hs)|(c & account & Hv & Hw & Hs)]]].
  - by rewrite Hw, Hs.
  - by rewrite Hw, Hs.
  - rewrite Hw, Hs. split; [done | by eexists].
  - rewrite Hw, Hs. destruct account as [a|]; [|done]. simpl in *.
    apply andb_true_iff in Hv as [Hv Hp]. apply andb_true_iff in Hv as [Ha Hg].
    split; [done|]. split; by apply truthy_nonempty.
Qed.

(** X7.  In every reachable state the signer answers for the address the
    provider shows: the one account of a relayed signer has the wallet
    address, which is not empty, and a non-empty algorithm; a signer of the
    injected provider is the one obtained for [PUBLIC_CHAIN_ID], and comes
    with an address; without a signer there is no address. *)
Theorem reachable_signer_matches_address s :
  reachable s → signer_matches_address s.
Proof.
  induction 1 as [store|op e s Hr IH]; [done|].
  eapply session_step_matches; [exact IH | apply run_op_session_step].
Qed.


Lemma initKepr_isLoading k s : isLoading (initKepr k s).2 = isLoading s.
Proof.
  destruct k as [k|]; [|done]. run_ops.
  destruct (kp_enable k); simpl; [done|].
  destruct (kp_signer k); simpl; [done|].
  destruct (kp_accounts k) as [[|first rest]|msg]; simpl; try done.
  by destruct (String.eqb (address first) "").
Qed.

(** X9.  No operation leaves the provider loading: in every reachable
    state [isLoading] is false, whether the last operation succeeded,
    returned [false] or threw. *)
Theorem reachable_not_loading s : reachable s → isLoading s = false.
Proof.
  induction 1 as [store|op e s Hr IH]; [done|].
  destruct op; simpl.
  - destruct (keplr e) as [k|] eqn:Hk.
    + by rewrite (connectKeplr_run e k s Hk).
    + unfold connectKeplr. by rewrite Hk.
  - rewrite connectWalletConnect_run; simpl.
    by destruct (initWalletConnect _ _) as [[r|msg] s1].
  - by destruct (disconnect_run (connector s) s) as (s' & -> & _ & _ & Hl & _).
  - destruct (keplr e) as [k|] eqn:Hk.
    + rewrite (setupAccount_run e k s Hk); simpl.
      by destruct (restoreSession _ _ _) as [[r|msg] s1].
    + unfold setupAccount. by rewrite Hk.
  - rewrite keystoreChangeHandler_run. case_decide; simpl; [|done].
    by rewrite initKepr_isLoading.
  - by destruct (disconnect_run captured s) as (s' & -> & _ & _ & Hl & _).
Qed.

(** ** What [disconnect] removes, and what it tells the relay *)

Lemma prefix_split (p key : string) :
  String.prefix p key = true → ∃ rest, key = p +:+ rest.
Proof.
  revert key. induction p as [|a p IH]; intros key; simpl.
  - intros _. by exists key.
  - destruct key as [|b key]; simpl; [done|].
    destruct (Ascii.ascii_dec a b) as [->|]; [|done].
    intros H. destruct (IH key H) as [rest ->]. by exists rest.
Qed.

(** X10.  [disconnect] removes from the store the wallet type, the relay
    session blob and every key that starts with the account prefix (with or
    without the underscore and a peer id after it), and leaves every other
    entry, such as the colour mode, as it is. *)
Theorem disconnect_storage captured s key :
  (is_account_key key = true ↔ ∃ rest, key = KEY_WALLET_CONNECT_ACCOUNT_PREFIX +:+ rest)
  ∧ storage (disconnect captured s).2 !! key
    = if decide (key = KEY_CONNECTED_WALLET_TYPE ∨ key = KEY_WALLET_CONNECT
                 ∨ is_account_key key = true)
      then None else storage s !! key.
Proof.
  split.
  { split; [apply prefix_split | intros [rest ->]; apply prefix_app]. }
  destruct (disconnect_run captured s) as (s' & -> & _ & _ & _ & _ & Hst); simpl.
  rewrite Hst.
  destruct (decide (key = KEY_WALLET_CONNECT)) as [->|Hwc].
  { rewrite lookup_delete_eq. rewrite decide_True; [done | by right; left]. }
  rewrite lookup_delete_ne by done.
  destruct (decide (key = KEY_CONNECTED_WALLET_TYPE)) as [->|Hty].
  { rewrite lookup_delete_eq. rewrite decide_True; [done | by left]. }
  rewrite lookup_delete_ne by done. rewrite lookup_foldl_delete.
  destruct (decide (_ ∨ _)) as [[?|[?|Hkey]]|Hnot]; [done|done| |].
  - case_decide as Hin; [done|].
    destruct (storage s !! key) as [v|] eqn:Hv; [|done].
    destruct Hin. apply account_keys_listed; [done | by eexists].
  - rewrite decide_False; [done|]. intros Hin.
    apply list_elem_of_filter in Hin as [Hin _]. destruct Hnot. by right; right.
Qed.

Lemma disconnect_run_calls captured s :
  let s' := (disconnect captured s).2 in
  let removed := filter (λ key, is_account_key key = true) ((map_to_list (storage s)).*1) in
  trace s' = trace s ++ EvGetAllKeys :: (EvRemoveItem <$> removed)
               ++ [EvRemoveItem KEY_CONNECTED_WALLET_TYPE; EvRemoveItem KEY_WALLET_CONNECT]
               ++ match captured with
                  | Some c => if kills captured s then [EvKillSession c] else []
                  | None => []
                  end
  ∧ connector s' = (if kills captured s then None else connector s)
  ∧ payloads s' = payloads s.
Proof.
  intros s' removed. subst s' removed.
  remember (disconnect captured s) as run eqn:Hrun. revert Hrun.
  unfold disconnect, getAllKeys, kills.
  unfold bind at 1. unfold bind at 1. unfold emit at 1, modify at 1.
  unfold bind at 1. rewrite forEach_removeItem_run.
  unfold removeItem, killSession, update_conn, settle, setConnector, setWalletAddress,
    setOfflineSigner, setIsLoading, setError, emit, modify, bind, ret, conn_connected; simpl.
  destruct captured as [c|]; simpl.
  - destruct (conns s !! c) as [o|]; simpl; [destruct (connected o)|]; simpl;
      intros ->; simpl; rewrite <- ?app_assoc; simpl; rewrite <- ?app_assoc; done.
  - intros ->; simpl; rewrite <- ?app_assoc; simpl; rewrite <- ?app_assoc; done.
Qed.

(** X11.  The calls [disconnect] makes: it lists the keys, removes the
    account keys, the wallet type and the session blob, in this order, and
    then calls [killSession] on the client it closes over when, and only
    when, that client reports a session; only then is the [connector]
    reference dropped.  No pairing and no request is ever made. *)
Theorem disconnect_calls captured s :
  let s' := (disconnect captured s).2 in
  let removed := filter (λ key, is_account_key key = true) ((map_to_list (storage s)).*1) in
  trace s' = trace s ++ EvGetAllKeys :: (EvRemoveItem <$> removed)
               ++ [EvRemoveItem KEY_CONNECTED_WALLET_TYPE; EvRemoveItem KEY_WALLET_CONNECT]
               ++ match captured with
                  | Some c => if kills captured s then [EvKillSession c] else []
                  | None => []
                  end
  ∧ connector s' = (if kills captured s then None else connector s)
  ∧ payloads s' = payloads s.
Proof. apply disconnect_run_calls. Qed.

(** ** Pairing through the relay *)

Ltac adopt_cases :=
  match goal with
  | |- context [adoptAccount ?c ?a ?s] =>
      let Hv := fresh "Hv" in
      destruct (valid_account a) eqn:Hv;
      [rewrite (adoptAccount_valid c a s Hv) | rewrite (adoptAccount_invalid c a s Hv)]
  end.

Lemma opened_store_recorded w session (store : gmap string string) :
  <[KEY_WALLET_CONNECT := session]> (opened_store w store)
  = <[KEY_WALLET_CONNECT := session]> store.
Proof.
  unfold opened_store. destruct (connected (wc_first w)); [apply insert_delete_eq | done].
Qed.

Lemma initWalletConnect_pairs w o peer l s :
  client_in_use w = Some o →
  wc_connect w = Ok peer →
  wc_accounts w = Ok (Accounts l) →
  valid_account (mjoin (head l)) = true →
  ∃ c s1 evs,
    uses s1 c o ∧ same_session w s s1
    ∧ trace s1 = trace s ++ evs ∧ Forall (λ ev, is_connect ev = false) evs
    ∧ initWalletConnect w s = (Ok true, adopted c peer (wc_session w) (mjoin (head l)) s1).
Proof.
  intros Hc Hconn Hacc Hv. rewrite initWalletConnect_withClient.
  pose proof (client_in_use_no_session w o Hc) as Hco.
  destruct (openConnector_in_use w o s Hc) as (c & s1 & -> & Hu & Hsame & evs & Ht & Hf).
  exists c, s1, evs. repeat (split; [done|]).
  unfold withClient, bind. rewrite (obtainAccount_pair w c o s1 Hu Hco), Hconn, Hacc.
  simpl. by rewrite adoptAccount_valid.
Qed.

(** X12.  A relayed connect whose pairing request is approved by a peer
    that answers the account request with a valid first account: the
    provider ends with the address of that account and a signer built on a
    client that is now connected to the peer; the account is cached under
    the key of that peer, as the text [JSON.stringify] gives, the wallet
    type "likerland_app" is persisted, and the store holds the record of the
    new session.  One pairing request is made, then one [cosmos_getAccounts]
    request for [PUBLIC_CHAIN_ID] with the next payload id, then the two
    writes. *)
Theorem connectWalletConnect_pairs e o peer l s :
  client_in_use (wc e) = Some o →
  wc_connect (wc e) = Ok peer →
  wc_accounts (wc e) = Ok (Accounts l) →
  valid_account (mjoin (head l)) = true →
  let account := mjoin (head l) in
  let text := JSON_stringify account in
  let s' := (connectWalletConnect e s).2 in
  ∃ c evs,
    walletAddress s' = Some (default "" (account ≫= bech32Address))
    ∧ offlineSigner s' = Some (signer_of c account)
    ∧ conns s' !! c = Some {| connected := true; peerId := peer |}
    ∧ storage s' = <[KEY_CONNECTED_WALLET_TYPE := "likerland_app"]>
                     (<[account_key peer := text]>
                        (<[KEY_WALLET_CONNECT := wc_session (wc e)]> (storage s)))
    ∧ isLoading s' = false
    ∧ error s' = error s
    ∧ trace s' = trace s ++ evs
        ++ [EvConnect c;
            EvSendCustomRequest c
              {| id := payloadId_at (payloads s); jsonrpc := "2.0";
                 method := "cosmos_getAccounts"; params := [PString PUBLIC_CHAIN_ID] |};
            EvSetItem (account_key peer) text;
            EvSetItem KEY_CONNECTED_WALLET_TYPE "likerland_app"]
    ∧ Forall (λ ev, is_connect ev = false) evs.
Proof.
  intros Hc Hconn Hacc Hv account text s'. subst account text s'.
  rewrite connectWalletConnect_run.
  destruct (initWalletConnect_pairs (wc e) o peer l (with_isLoading true s)
              Hc Hconn Hacc Hv)
    as (c & s1 & evs & Hu & (Hw & Hs & Hst & He & Hl & Hp) & Ht & Hf & ->).
  exists c, evs. unfold adopted, paired. simpl in *.
  rewrite Hst, opened_store_recorded, He, Hp, Ht.
  split; [done|]. split; [done|].
  split; [apply list_lookup_insert_eq; by eapply lookup_lt_Some|].
  do 3 (split; [done|]). split; [|done].
  by rewrite <- !app_assoc.
Qed.

(** X13.  A relayed connect whose pairing request is rejected (the user
    closes the QR code modal): the message of the rejection becomes the
    [error], [isLoading] ends false, address and signer are as before, and
    no account request was made (no payload id was taken).  The store is as
    before, but for the record of a session that was found live: that
    session has been killed before the request. *)
Theorem connectWalletConnect_pairing_rejected e o msg s :
  client_in_use (wc e) = Some o →
  wc_connect (wc e) = Throw msg →
  let s' := (connectWalletConnect e s).2 in
  walletAddress s' = walletAddress s
  ∧ offlineSigner s' = offlineSigner s
  ∧ storage s' = (if connected (wc_first (wc e))
                  then delete KEY_WALLET_CONNECT (storage s) else storage s)
  ∧ isLoading s' = false
  ∧ error s' = Some msg
  ∧ payloads s' = payloads s
  ∧ ∃ c evs, trace s' = trace s ++ evs ++ [EvConnect c]
             ∧ Forall (λ ev, is_connect ev = false) evs.
Proof.
  intros Hc Hconn s'. subst s'.
  pose proof (client_in_use_no_session (wc e) o Hc) as Hco.
  rewrite connectWalletConnect_run, initWalletConnect_withClient.
  destruct (openConnector_in_use (wc e) o (with_isLoading true s) Hc)
    as (c & s1 & -> & Hu & (Hw & Hs & Hst & He & Hl & Hp) & evs & Ht & Hf).
  unfold withClient, bind. rewrite (obtainAccount_pair (wc e) c o s1 Hu Hco), Hconn.
  simpl in *. rewrite Ht, <- app_assoc.
  repeat (split; [done|]). by exists c, evs.
Qed.

(** ** The client the provider remembers *)

(** What follows [openConnector] leaves the [connector] reference alone and
    touches no client object but its own. *)
Lemma withClient_heap w c o s :
  uses s c o →
  connector (withClient w c s).2 = connector s
  ∧ ∀ i, i ≠ c → conns (withClient w c s).2 !! i = conns s !! i.
Proof.
  intros Hu. unfold withClient, bind.
  destruct (connected o) eqn:Hco.
  - rewrite (obtainAccount_restore w c o s Hu Hco). simpl.
    destruct (truthy (storage s !! account_key (peerId o))).
    + destruct (JSON_parse _) as [account|]; [|done]. by adopt_cases.
    + destruct (truthy (storage s !! KEY_WALLET_CONNECT)); by adopt_cases.
  - rewrite (obtainAccount_pair w c o s Hu Hco).
    destruct (wc_connect w) as [peer|msg]; [|done].
    destruct (wc_accounts w) as [[|l]|msg]; simpl;
      try adopt_cases; simpl; (split; [done|]); intros i Hi;
      by rewrite list_lookup_insert_ne.
Qed.

(** X14.  When a relayed connect finds the first client connected and
    replaces it after the kill, the [connector] the provider remembers is the
    first, killed client ([setConnector] runs before the replacement), while
    the signer, if one is created, works on the second.  A [disconnect] that
    follows therefore finds its client not connected and sends no
    [killSession]: the session of the second client is not ended at the
    relay, only forgotten locally. *)
Theorem disconnect_after_replaced_client e s :
  connected (wc_first (wc e)) = true →
  wc_kill (wc e) = None →
  let c1 := length (conns s) in
  let s1 := (connectWalletConnect e s).2 in
  let s2 := (disconnect (connector s1) s1).2 in
  connector s1 = Some c1
  ∧ conns s1 !! c1 = Some {| connected := false; peerId := "" |}
  ∧ signer_on (S c1) s s1
  ∧ Forall (λ ev, is_kill ev = false) (drop (length (trace s1)) (trace s2))
  ∧ connector s2 = Some c1.
Proof.
  intros Hf Hk c1 s1 s2.
  assert (Hs1 : connector s1 = Some c1
                ∧ conns s1 !! c1 = Some {| connected := false; peerId := "" |}
                ∧ signer_on (S c1) s s1).
  { subst s1 c1. rewrite connectWalletConnect_run, initWalletConnect_withClient.
    rewrite (openConnector_killed (wc e) (with_isLoading true s) Hf Hk). simpl.
    match goal with |- context [withClient ?w ?c ?s0] =>
      assert (Hu : uses s0 c no_session);
      [|destruct (withClient_heap w c _ s0 Hu) as (Hc & Hh);
        destruct (withClient_spec w c _ s0 Hu) as (evs & _ & _ & _ & Hsg);
        specialize (Hh (length (conns s)));
        destruct (withClient w c s0) as [[r|msg] s']]
    end.
    - unfold uses; simpl. apply heap_lookup_new. rewrite length_app; simpl. lia.
    - simpl in *. split; [done|]. split; [|done]. rewrite Hh by lia.
      rewrite lookup_app_l by (rewrite length_app; simpl; lia).
      by apply heap_lookup_new.
    - simpl in *. split; [done|]. split; [|done]. rewrite Hh by lia.
      rewrite lookup_app_l by (rewrite length_app; simpl; lia).
      by apply heap_lookup_new. }
  destruct Hs1 as (Hc & Hh & Hsg). do 3 (split; [done|]).
  destruct (disconnect_run_calls (connector s1) s1) as (Ht & Hc2 & _).
  fold s2 in Ht, Hc2. unfold kills in *. rewrite Hc in *. simpl in *.
  rewrite Hh in *. simpl in *. split; [|done].
  rewrite Ht, drop_app_length.
  constructor; [done|]. apply Forall_app. split.
  - apply Forall_fmap. by apply Forall_true.
  - by repeat constructor.
Qed.

(** ** After a disconnect *)

(** X15.  After a [disconnect] nothing is left to restore: a restart and a
    [keplr_keystorechange] event both read the wallet type, find none, and
    end without a session and without any other outside call, whatever the
    outside world would have answered. *)
Theorem nothing_to_restore_after_disconnect captured e s :
  let s1 := (disconnect captured s).2 in
  let s2 := (setupAccount e s1).2 in
  let s3 := (keystoreChangeHandler e s1).2 in
  walletAddress s2 = None ∧ offlineSigner s2 = None
  ∧ storage s2 = storage s1 ∧ error s2 = None ∧ isLoading s2 = false
  ∧ trace s2 = trace s1 ++ match keplr e with
                           | Some _ => [EvGetItem KEY_CONNECTED_WALLET_TYPE]
                           | None => []
                           end
  ∧ walletAddress s3 = None ∧ offlineSigner s3 = None
  ∧ storage s3 = storage s1 ∧ error s3 = None ∧ isLoading s3 = false
  ∧ trace s3 = trace s1 ++ [EvGetItem KEY_CONNECTED_WALLET_TYPE].
Proof.
  intros s1 s2 s3. subst s1 s2 s3.
  destruct (disconnect_run captured s) as (s1 & -> & Hw & Hs & Hl & He & Hst). simpl.
  assert (Hty : storage s1 !! KEY_CONNECTED_WALLET_TYPE = None).
  { rewrite Hst. rewrite lookup_delete_ne by done. apply lookup_delete_eq. }
  rewrite keystoreChangeHandler_run. rewrite decide_False by (by rewrite Hty).
  destruct (keplr e) as [k|] eqn:Hk.
  - rewrite (setupAccount_run e k s1 Hk). simpl. rewrite Hty.
    unfold restoreSession. rewrite decide_False by done. rewrite decide_False by done.
    simpl. done.
  - unfold setupAccount. rewrite Hk. simpl. by rewrite app_nil_r.
Qed.

(** ** The chain profile *)

Lemma contains_testnet_spec (text : string) :
  contains_testnet text = true ↔ ∃ pre post, text = pre +:+ "testnet" +:+ post.
Proof.
  split.
  - induction text as [|a text IH].
    + done.
    + intros H. change (contains_testnet (String a text))
        with (String.prefix "testnet" (String a text) || contains_testnet text) in H.
      apply orb_true_iff in H as [H|H].
      * apply prefix_split in H as [post ->]. by exists "", post.
      * destruct (IH H) as (pre & post & ->). by exists (String a pre), post.
  - intros (pre & post & ->). induction pre as [|a pre IH].
    + destruct post; done.
    + change (contains_testnet (String a pre +:+ "testnet" +:+ post))
        with (String.prefix "testnet" (String a (pre +:+ "testnet" +:+ post))
              || contains_testnet (pre +:+ "testnet" +:+ post)).
      rewrite IH. apply orb_true_r.
Qed.

(** X16.  [getChainInfo] yields the test chain profile exactly when
    [PUBLIC_CHAIN_ID] has "testnet" somewhere in it, and the main chain
    profile otherwise, whatever the chain id itself is: the chain suggested
    to the injected provider is one of the two built-in ones, while [enable]
    and the account request use [PUBLIC_CHAIN_ID]. *)
Theorem getChainInfo_profile :
  (getChainInfo = testnet ↔ ∃ pre post, PUBLIC_CHAIN_ID = pre +:+ "testnet" +:+ post)
  ∧ (getChainInfo = mainnet ↔ ¬ ∃ pre post, PUBLIC_CHAIN_ID = pre +:+ "testnet" +:+ post).
Proof.
  unfold getChainInfo, isTestnet. rewrite <- contains_testnet_spec.
  by destruct (contains_testnet PUBLIC_CHAIN_ID).
Qed.

End WalletFacts.

(** * The provider's keys and the others *)

Section StoreFrame.

Context {P : Platform}.
Local Open Scope async_scope.

Variable key : string.
Variable v : option string.
Hypothesis key_foreign : foreign key.

Lemma keeps_modify f :
  (∀ s, storage (f s) = storage s) → preserves (keeps key v) (modify f).
Proof. intros Hf s H. unfold keeps, modify in *; simpl. by rewrite Hf. Qed.

Lemma keeps_emit ev : preserves (keeps key v) (emit ev).
Proof. by apply keeps_modify. Qed.

Lemma keeps_setItem key' value : key' ≠ key → preserves (keeps key v) (setItem key' value).
Proof.
  intros Hne. apply preserves_bind; [apply keeps_emit | intros _].
  intros s H. unfold keeps, modify in *; simpl. by rewrite lookup_insert_ne.
Qed.

Lemma keeps_removeItem key' : key' ≠ key → preserves (keeps key v) (removeItem key').
Proof.
  intros Hne. apply preserves_bind; [apply keeps_emit | intros _].
  intros s H. unfold keeps, modify in *; simpl. by rewrite lookup_delete_ne.
Qed.

Lemma keeps_pure {A} (m : M State A) :
  (∀ s, storage (m s).2 = storage s) → preserves (keeps key v) m.
Proof. intros Hm s H. unfold keeps in *. by rewrite Hm. Qed.

Lemma keeps_forget_session : preserves (keeps key v) forget_session.
Proof.
  intros s H. unfold keeps, forget_session, modify in *; simpl.
  rewrite lookup_delete_ne; [done|]. intros <-. by destruct key_foreign as (_ & _ & ?).
Qed.

Lemma keeps_record_session session : preserves (keeps key v) (record_session session).
Proof.
  intros s H. unfold keeps, record_session, modify in *; simpl.
  rewrite lookup_insert_ne; [done|]. intros <-. by destruct key_foreign as (_ & _ & ?).
Qed.

Lemma account_key_not_foreign peer : account_key peer ≠ key.
Proof.
  intros <-. destruct key_foreign as (Hk & _). by rewrite account_key_is_account_key in Hk.
Qed.

Lemma wallet_type_not_foreign : KEY_CONNECTED_WALLET_TYPE ≠ key.
Proof. intros <-. by destruct key_foreign as (_ & ? & _). Qed.

Lemma wallet_connect_not_foreign : KEY_WALLET_CONNECT ≠ key.
Proof. intros <-. by destruct key_foreign as (_ & _ & ?). Qed.

(** Walks through an operation, call by call; [known] closes the calls
    that have a lemma of their own. *)
Ltac keeps_walk_with known :=
  repeat first
    [ known
    | apply preserves_ret
    | apply preserves_throw
    | apply preserves_settle
    | apply preserves_settle_with
    | apply keeps_emit
    | apply keeps_forget_session
    | apply keeps_record_session
    | apply keeps_setItem, account_key_not_foreign
    | apply keeps_setItem, wallet_type_not_foreign
    | apply keeps_removeItem, wallet_connect_not_foreign
    | apply keeps_pure; by intros ?
    | apply preserves_bind; [|intros ?]
    | apply preserves_try_catch; [|intros ?]
    | match goal with
      | |- preserves _ (if ?b then _ else _) => destruct b
      | |- preserves _ (match ?x with _ => _ end) => destruct x
      end ].

Ltac keeps_walk := keeps_walk_with fail.

Lemma keeps_initKepr k : preserves (keeps key v) (initKepr k).
Proof. unfold initKepr, setWalletAddress, setOfflineSigner. keeps_walk. Qed.

Lemma keeps_suggestChain k : preserves (keeps key v) (suggestChain k).
Proof. unfold suggestChain, setIsLoading, setError. keeps_walk. Qed.

Lemma keeps_initWalletConnect w : preserves (keeps key v) (initWalletConnect w).
Proof.
  unfold initWalletConnect, openConnector, obtainAccount, adoptAccount, killSession,
    connect, sendCustomRequest, onDisconnect, first_account, update_conn, getItem,
    setConnector, setWalletAddress, setOfflineSigner.
  keeps_walk.
Qed.

Lemma keeps_disconnect captured : preserves (keeps key v) (disconnect captured).
Proof.
  intros s H. unfold keeps in *.
  destruct (disconnect_run captured s) as (s' & -> & _ & _ & _ & _ & Hst); simpl.
  rewrite Hst.
  rewrite lookup_delete_ne by apply wallet_connect_not_foreign.
  rewrite lookup_delete_ne by apply wallet_type_not_foreign.
  rewrite lookup_foldl_delete, decide_False; [done|].
  intros Hin. apply list_elem_of_filter in Hin as [Hin _].
  destruct key_foreign as (Hk & _). congruence.
Qed.

Ltac keeps_ops :=
  keeps_walk_with
    ltac:(first [ apply keeps_initWalletConnect | apply keeps_initKepr
                | apply keeps_suggestChain ]).

Lemma keeps_connectKeplr e : preserves (keeps key v) (connectKeplr e).
Proof. unfold connectKeplr, setIsLoading, setError. destruct (keplr e); keeps_ops. Qed.

Lemma keeps_connectWalletConnect e : preserves (keeps key v) (connectWalletConnect e).
Proof. unfold connectWalletConnect, setIsLoading, setError. keeps_ops. Qed.

Lemma keeps_setupAccount e : preserves (keeps key v) (setupAccount e).
Proof.
  unfold setupAccount, restoreSession, getItem, setIsLoading, setError.
  destruct (keplr e); keeps_ops.
Qed.

Lemma keeps_keystoreChangeHandler e : preserves (keeps key v) (keystoreChangeHandler e).
Proof. unfold keystoreChangeHandler, getItem. keeps_ops. Qed.

Lemma keeps_run_op op e s : keeps key v s → keeps key v (run_op op e s).
Proof.
  destruct op; simpl.
  - apply keeps_connectKeplr.
  - apply keeps_connectWalletConnect.
  - apply keeps_disconnect.
  - apply keeps_setupAccount.
  - apply keeps_keystoreChangeHandler.
  - apply keeps_disconnect.
Qed.

End StoreFrame.

Section StoreFacts.

Context {P : Platform}.

(** X17.  The provider keeps to its own keys: whatever the operation and
    whatever the outside world answers, an entry of the store whose key is
    neither the wallet type, nor the relay session blob, nor a key with the
    account prefix is after the operation what it was before. *)
Theorem provider_keeps_foreign_keys op e s key :
  is_account_key key = false →
  key ≠ KEY_CONNECTED_WALLET_TYPE →
  key ≠ KEY_WALLET_CONNECT →
  storage (run_op op e s) !! key = storage s !! key.
Proof.
  intros Hk Hty Hwc. by apply (keeps_run_op key (storage s !! key)).
Qed.



End StoreFacts.

(** * Properties of the channel screen *)

Section ChannelFacts.

Context {P : Platform} {Message File : Type}.

Lemma fetchNewMessages_one_in_flight name previousId refresh (s : @Screen Message) :
  one_in_flight s → one_in_flight (fetchNewMessages name previousId refresh s).
Proof.
  intros Hinv. pose proof Hinv as [Hlen Hload]. unfold fetchNewMessages.
  destruct (isLoadingMore s) eqn:Hl; simpl; [done|].
  destruct (isListReachedEnd s); simpl; [done|].
  destruct (waiting s) as [|f rest] eqn:Hw; [|by specialize (Hload ltac:(done))].
  split; simpl; [lia | done].
Qed.

Lemma screen_step_one_in_flight op (s : @Screen Message) :
  one_in_flight s → one_in_flight (screen_step op s).
Proof.
  intros Hinv. destruct op as [name|name previousId refresh|page|]; simpl.
  - unfold onFocus. case_decide; [done|].
    apply fetchNewMessages_one_in_flight. destruct Hinv. by split.
  - by apply fetchNewMessages_one_in_flight.
  - pose proof Hinv as [Hlen Hload].
    destruct (waiting s) as [|f [|g rest]] eqn:Hw; [done| |simpl in Hlen; lia].
    split; simpl; [lia | done].
  - pose proof Hinv as [Hlen Hload].
    destruct (waiting s) as [|f [|g rest]] eqn:Hw; [done| |simpl in Hlen; lia].
    split; simpl; [lia | done].
Qed.

Lemma screen_reachable_one_in_flight (s : @Screen Message) :
  screen_reachable s → one_in_flight s.
Proof.
  induction 1 as [|op s Hr IH].
  - split; simpl; [lia | done].
  - by apply screen_step_one_in_flight.
Qed.

(** X19.  At most one call of [fetchNewMessages] waits for its page at any
    time, and while one waits [isLoadingMore] is true: a call made meanwhile,
    by the list or by the effect, returns at the guard and makes no
    request. *)
Theorem one_fetch_at_a_time (s : @Screen Message) name previousId refresh :
  screen_reachable s →
  length (waiting s) ≤ 1
  ∧ (waiting s ≠ [] →
     isLoadingMore s = true
     ∧ screen_step (OpFetch name previousId refresh) s = s).
Proof.
  intros Hr. destruct (screen_reachable_one_in_flight s Hr) as [Hlen Hload].
  split; [done|]. intros Hw. split; [by apply Hload|].
  simpl. unfold fetchNewMessages. by rewrite (Hload Hw).
Qed.

Lemma blocked_step op (s : @Screen Message) :
  waiting s = [] → isLoadingMore s = true →
  waiting (screen_step op s) = [] ∧ isLoadingMore (screen_step op s) = true
  ∧ requests (screen_step op s) = requests s.
Proof.
  intros Hw Hl. destruct op as [name|name previousId refresh|page|]; simpl.
  - unfold onFocus. case_decide; [done|].
    unfold channelEffect, fetchNewMessages. simpl. by rewrite Hl.
  - unfold fetchNewMessages. by rewrite Hl.
  - by rewrite Hw.
  - by rewrite Hw.
Qed.

(** X20.  A rejected page request is never recovered from.  The part of
    [fetchNewMessages] after the [await] does not run, so [isLoadingMore]
    stays true; whatever happens afterwards (scrolling, leaving for another
    channel and coming back) no request is made again and the list keeps
    saying that it is loading. *)
Theorem rejected_fetch_blocks (s : @Screen Message) ops :
  screen_reachable s →
  waiting s ≠ [] →
  let s' := screen_run ops (screen_step OpReject s) in
  requests s' = requests s ∧ isLoadingMore s' = true ∧ waiting s' = [].
Proof.
  intros Hr Hw s'. subst s'.
  destruct (screen_reachable_one_in_flight s Hr) as [Hlen Hload].
  specialize (Hload Hw).
  assert (Hstart : waiting (screen_step OpReject s) = []
                   ∧ isLoadingMore (screen_step OpReject s) = true
                   ∧ requests (screen_step OpReject s) = requests s).
  { simpl. destruct (waiting s) as [|f [|g rest]]; [done|done|simpl in Hlen; lia]. }
  revert Hstart. generalize (screen_step OpReject s). clear Hr Hw Hlen Hload.
  induction ops as [|op ops IH]; intros s0 (Hw0 & Hl0 & Hreq0); [done|].
  apply IH. destruct (blocked_step op s0 Hw0 Hl0) as (? & ? & Hreq).
  by rewrite Hreq.
Qed.

(** X21.  Once a page arrives with [hasMore] false the list is final for
    the channel: as long as the focus does not move to another channel,
    further calls make no request and nothing on the screen changes. *)
Theorem end_of_list_is_final (s : @Screen Message) page ops :
  screen_reachable s →
  waiting s ≠ [] →
  hasMore page = false →
  let s' := screen_step (OpResolve page) s in
  Forall (λ op, leaves (channelName s) op = false) ops →
  isListReachedEnd s' = true ∧ isLoadingMore s' = false
  ∧ screen_run ops s' = s'.
Proof.
  intros Hr Hw Hmore s' Hops.
  destruct (screen_reachable_one_in_flight s Hr) as [Hlen _].
  assert (Hs' : isListReachedEnd s' = true ∧ isLoadingMore s' = false
                ∧ waiting s' = [] ∧ channelName s' = channelName s).
  { subst s'. simpl. destruct (waiting s) as [|f [|g rest]]; [done| |simpl in Hlen; lia].
    simpl. by rewrite Hmore. }
  destruct Hs' as (Hend & Hl & Hw' & Hname). do 2 (split; [done|]).
  rewrite <- Hname in Hops. clear Hr Hw Hlen Hname. clearbody s'.
  induction Hops as [|op ops Hop _ IH]; [done|].
  unfold screen_run. cbn [foldl].
  assert (Hstep : screen_step op s' = s'); [|by rewrite Hstep].
  destruct op as [name|name previousId refresh|page'|]; simpl in *.
  - unfold onFocus. apply negb_false_iff, bool_decide_eq_true in Hop.
    by rewrite decide_True.
  - unfold fetchNewMessages. by rewrite Hend, orb_true_r.
  - by rewrite Hw'.
  - by rewrite Hw'.
Qed.

Lemma load_page_run name (s : @Screen Message) p :
  isLoadingMore s = false → isListReachedEnd s = false → waiting s = [] →
  let s' := load_page name s p in
  messages s' = messages s ++ p.2
  ∧ requests s' = requests s ++ [(name, p.1)]
  ∧ isLoadingMore s' = false ∧ isListReachedEnd s' = false ∧ waiting s' = []
  ∧ channelName s' = channelName s.
Proof.
  intros Hl Hend Hw. unfold load_page. simpl. unfold fetchNewMessages.
  by rewrite Hl, Hend, Hw.
Qed.

(** X22.  Paging appends: when nothing waits and the end has not been
    reached, loading pages one after the other without [refresh] leaves the
    list as it was followed by the pages in the order in which they were
    asked for, with one request per page. *)
Theorem pages_append name (s : @Screen Message) pages :
  isLoadingMore s = false → isListReachedEnd s = false → waiting s = [] →
  let s' := foldl (load_page name) s pages in
  messages s' = messages s ++ concat (pages.*2)
  ∧ requests s' = requests s ++ ((λ p, (name, p.1)) <$> pages).
Proof.
  revert s. induction pages as [|p pages IH]; intros s Hl Hend Hw; simpl.
  - by rewrite !app_nil_r.
  - destruct (load_page_run name s p Hl Hend Hw) as (Hm & Hreq & Hl' & Hend' & Hw' & _).
    destruct (IH (load_page name s p) Hl' Hend' Hw') as (Hm2 & Hreq2).
    simpl in *. rewrite Hm2, Hreq2, Hm, Hreq, <- !app_assoc. done.
Qed.

(** X23.  Leaving for another channel while a page is awaited: the effect
    of the new channel meets [isLoadingMore] true and makes no request, and
    when the awaited page arrives it is put on the screen of the new
    channel, after the messages the call had closed over unless it was a
    refresh.  No page of the new channel is asked for. *)
Theorem switch_while_loading (s : @Screen Message) f name page :
  screen_reachable s →
  waiting s = [f] →
  channelName s ≠ Some name →
  let s' := screen_step (OpResolve page) (screen_step (OpFocus name) s) in
  channelName s' = Some name
  ∧ requests s' = requests s
  ∧ waiting s' = []
  ∧ messages s' = match data page with
                  | Some newMessages =>
                      if fetch_refresh f then newMessages
                      else fetch_messages f ++ newMessages
                  | None => []
                  end.
Proof.
  intros Hr Hw Hname s'. subst s'.
  destruct (screen_reachable_one_in_flight s Hr) as [_ Hload].
  assert (Hl : isLoadingMore s = true) by (apply Hload; by rewrite Hw).
  simpl. unfold onFocus. rewrite decide_False by done.
  unfold channelEffect, fetchNewMessages. simpl. rewrite Hl. simpl. rewrite Hw. simpl.
  do 3 (split; [done|]). destruct (data page); [|done]. by destruct (fetch_refresh f).
Qed.

(** X24.  Mounting the screen asks for the first page of the route's
    channel once: the effect makes the request, and the effect that the
    focus triggers by setting [channelName] returns at the guard.  When the
    page arrives it becomes the list. *)
Theorem mount_loads_first_page name (page : @Page Message) :
  let s := @mount Message name in
  requests s = [(name, None)]
  ∧ channelName s = Some name
  ∧ title s = Some ("#" +:+ name)
  ∧ isLoadingMore s = true
  ∧ messages (screen_step (OpResolve page) s) = default [] (data page)
  ∧ isLoadingMore (screen_step (OpResolve page) s) = false
  ∧ isListReachedEnd (screen_step (OpResolve page) s) = negb (hasMore page).
Proof.
  unfold mount, onFocus. simpl. do 4 (split; [done|]).
  split; [by destruct (data page)|]. split; [done|]. by destruct (hasMore page).
Qed.

(** ** Submitting *)

(** X25.  Without a signer nothing is posted: [handleOnSubmit] shows no
    loading overlay, calls neither [postMessage] nor the redirect, and ends
    with an error alert. *)
Theorem handleOnSubmit_without_signer (w : State) handle (env : @SubmitEnv File) text image :
  offlineSigner w = None →
  let evs := handleOnSubmit w handle env text image in
  Forall (λ ev, is_post ev = false ∧ is_redirect ev = false ∧ ev ≠ ShowLoading) evs
  ∧ ∃ alertTitle, last evs = Some (AlertShow alertTitle status_error).
Proof.
  intros Hs evs. subst evs. unfold handleOnSubmit. rewrite Hs.
  destruct (truthy image); [destruct (file_of env) as [file|ex]|]; simpl;
    (split; [by repeat constructor | by eexists]).
Qed.

(** X26.  The redirect to the user page happens exactly when the image, if
    there is one, was converted, a signer is present and [postMessage]
    resolved; it then goes to [/user/] followed by the user handle, and
    comes after the [postMessage] call made with the provider's signer. *)
Theorem handleOnSubmit_redirect (w : State) handle (env : @SubmitEnv File) text image :
  let evs := handleOnSubmit w handle env text image in
  (Exists (λ ev, is_redirect ev = true) evs
   ↔ (truthy image = true → ∃ file, file_of env = Resolved file)
     ∧ is_Some (offlineSigner w)
     ∧ ∃ txn, posted env = Resolved txn)
  ∧ ∀ href, SetLocationHref href ∈ evs →
      href = "/user/" +:+ template_text handle
      ∧ ∃ signer files before after,
          offlineSigner w = Some signer
          ∧ evs = before ++ PostMessage signer text files :: WaitAsync 500
                    :: SetLocationHref href :: after.
Proof.
  intros evs. subst evs. unfold handleOnSubmit. split.
  - destruct (truthy image); [destruct (file_of env) as [file|ex]|];
      (destruct (offlineSigner w) as [signer|]; [destruct (posted env) as [txn|ex']|]);
      simpl; (split; [intros Hex|intros (Hfile & Hsg & Htxn)]);
      try (by destruct Hsg); try (by destruct Htxn);
      try (by destruct Hfile);
      try (repeat (apply Exists_cons in Hex as [Hex|Hex]; [done|]);
           by apply Exists_nil in Hex);
      try (split; [by eauto | split; by eauto]);
      try (destruct txn; simpl; by repeat (constructor; try done));
      try (by do 3 right; left);
      try (by do 4 right; left).
  - intros href Hin.
    destruct (truthy image); [destruct (file_of env) as [file|ex]|];
      (destruct (offlineSigner w) as [signer|]; [destruct (posted env) as [txn|ex']|]);
      simpl in *;
      repeat (apply elem_of_cons in Hin as [Hin|Hin]; [try done|]);
      try (by apply not_elem_of_nil in Hin);
      try (destruct txn; simpl in *;
           repeat (apply elem_of_cons in Hin as [Hin|Hin]; [try done|]);
           by apply not_elem_of_nil in Hin).
    all: injection Hin as ->; (split; [done|]).
    + exists signer, (Some [file]), [DataUrlToFile (default "" image) "upload"; ShowLoading].
      by eexists.
    + exists signer, None, [ShowLoading]. by eexists.
Qed.

(** X27.  A submit that does not redirect ends with exactly one alert, an
    error alert, and a submit that redirects shows no error alert and never
    closes the loading overlay.  The [catch] block closes the overlay also
    when it was never shown (the image conversion failed), and shows the
    message of the exception only for an [AppStateError]. *)
Theorem handleOnSubmit_alerts (w : State) handle (env : @SubmitEnv File) text image :
  let evs := handleOnSubmit w handle env text image in
  if existsb is_redirect evs then
    Forall (λ ev, ev ≠ CloseLoading ∧ ∀ t, ev ≠ AlertShow t status_error) evs
  else
    ∃ before alertTitle,
      evs = before ++ [AlertShow alertTitle status_error]
      ∧ Forall (λ ev, is_alert ev = false) before
      ∧ ∀ ex, (file_of env = Rejected ex ∧ truthy image = true)
              ∨ (posted env = Rejected ex ∧ is_Some (offlineSigner w)
                 ∧ (truthy image = true → ∃ file, file_of env = Resolved file)) →
              last before = Some CloseLoading
              ∧ alertTitle = if isAppStateError ex then message ex
                             else "Something went wrong, please try again later".
Proof.
  intros evs. subst evs. unfold handleOnSubmit.
  destruct (truthy image); [destruct (file_of env) as [file|ex]|];
    (destruct (offlineSigner w) as [signer|]; [destruct (posted env) as [txn|ex']|]);
    simpl; try (destruct txn; simpl; by repeat constructor).
  all: try (eexists [_; _; _; _], _; split; [reflexivity|]; split; [by repeat constructor|];
            intros ex0 [[? ?]|(Hp & Hsg & Hf)]; [done|]; by injection Hp as <-).
  all: try (eexists [_; _; _], _; split; [reflexivity|]; split; [by repeat constructor|];
            intros ex0 [[? ?]|(Hp & Hsg & Hf)]; [done|]; by injection Hp as <-).
  all: try (eexists [_; _], _; split; [reflexivity|]; split; [by repeat constructor|];
            intros ex0 [[Hp ?]|(Hp & Hsg & Hf)];
            [by injection Hp as <- | try (by destruct Hsg); try (by destruct Hf)]).
  all: try (eexists [_], _; split; [reflexivity|]; split; [by repeat constructor|];
            intros ex0 [[Hp ?]|(Hp & Hsg & Hf)];
            [done | try (by destruct Hsg); try (by destruct Hf)]).
  all: try (eexists [], _; split; [reflexivity|]; split; [by repeat constructor|];
            intros ex0 [[Hp ?]|(Hp & Hsg & Hf)];
            [done | try (by destruct Hsg); try (by destruct Hf)]).
Qed.

(** X28.  The composer is rendered only when [isLoggedIn], and in every
    state the provider can be in, [isLoggedIn] comes with a signer: a submit
    from the composer, without an image, reaches [postMessage] with the
    provider's signer, and the user handle it redirects to is never
    null. *)
Theorem composer_has_signer (w : State) getLikecoinAddressByProfile profile
    (env : @SubmitEnv File) text :
  reachable w →
  isLoggedIn w = true →
  ∃ signer,
    offlineSigner w = Some signer
    ∧ is_Some (userHandle getLikecoinAddressByProfile profile w)
    ∧ PostMessage signer text None
        ∈ handleOnSubmit w (userHandle getLikecoinAddressByProfile profile w) env text None.
Proof.
  intros Hr Hlog. apply reachable_session_inv in Hr. unfold session_inv in Hr.
  unfold isLoggedIn in Hlog. apply andb_true_iff in Hlog as [Hw _].
  destruct (walletAddress w) as [a|] eqn:Ha; [|done].
  destruct (offlineSigner w) as [signer|] eqn:Hs; [|done].
  exists signer. split; [done|]. split.
  - unfold userHandle. rewrite Ha.
    destruct (truthy (profile ≫= getLikecoinAddressByProfile)); simpl; [|by eexists].
    destruct (profile ≫= dtag) as [d|]; simpl; [|by eexists].
    destruct (negb (String.eqb d "")); by eexists.
  - unfold handleOnSubmit. simpl. rewrite Hs. apply elem_of_cons. right.
    apply elem_of_cons. by left.
Qed.

End ChannelFacts.

(** * The theorems at the example inputs *)

Lemma single_active_session_witness :
  @reachable example_platform
    connected_keplr
  ∧ (is_Some (walletAddress connected_keplr) ↔ is_Some (offlineSigner connected_keplr))
  ∧ (∀ t1 t2, session_active t1 connected_keplr → session_active t2 connected_keplr → t1 = t2)
  ∧ (∀ t, session_active t connected_keplr →
          ∃ a, walletAddress connected_keplr = Some a ∧ a ≠ "").
Proof.
  assert (Hr : @reachable example_platform connected_keplr)
    by apply reachable_step, reachable_initial.
  split; [exact Hr|].
  exact (single_active_session (P := example_platform) connected_keplr Hr).
Defined.

Lemma signDirect_request_response_witness :
  offlineSigner mounted_relayed = Some (WalletConnectSigner 0 alice_data)
  ∧ sign_run.1 = Ok (@Build_DirectSignResponse example_platform "body" "c2lnbmF0dXJl")
  ∧ trace sign_run.2
    = trace mounted_relayed
      ++ [EvSendCustomRequest 0
            {| id := 1667260800000001;
               jsonrpc := "2.0";
               method := "cosmos_signDirect";
               params := [PString "cosmos1alice"; @PSignDoc example_platform "json:body"] |}]
  ∧ payloads sign_run.2 = 2.
Proof.
  split; [reflexivity|].
  exact (signDirect_request_response (P := example_platform) mounted_relayed 0 _ "cosmos1alice" "body"
           (@Build_SignResponseJSON example_platform "json:body" "c2lnbmF0dXJl")
           eq_refl).
Defined.

Lemma kill_before_new_client_witness :
  connected (wc_first (wc env_live)) = true
  ∧ ∃ rest,
      emitted fresh_mount
        (example_connectWalletConnect env_live fresh_mount).2
        (EvNewWalletConnect 0 :: EvKillSession 0 :: rest)
      ∧ Forall (λ ev, event_conn ev ≠ Some 0) rest
      ∧ (∃ rest', rest = EvNewWalletConnect 1 :: EvOnDisconnect 1 :: EvConnect 1 :: rest'
                  ∧ Forall (about 1) rest'
                  ∧ Forall (λ ev, is_connect ev = false) rest')
      ∧ signer_on 1 fresh_mount
          (example_connectWalletConnect env_live fresh_mount).2.
Proof.
  split; [reflexivity|].
  exact (kill_before_new_client (P := example_platform) env_live fresh_mount eq_refl).
Defined.

Lemma connectKeplr_unavailable_witness :
  keplr env_no_keplr = None
  ∧ example_connectKeplr env_no_keplr fresh_mount = (Ok tt, with_error (Some "Keplr is not available") fresh_mount)
  ∧ trace (example_connectKeplr env_no_keplr fresh_mount).2 = trace fresh_mount
  ∧ storage (example_connectKeplr env_no_keplr fresh_mount).2 = storage fresh_mount
  ∧ walletAddress (example_connectKeplr env_no_keplr fresh_mount).2 = walletAddress fresh_mount
  ∧ offlineSigner (example_connectKeplr env_no_keplr fresh_mount).2 = offlineSigner fresh_mount
  ∧ connector (example_connectKeplr env_no_keplr fresh_mount).2 = connector fresh_mount
  ∧ error (example_connectKeplr env_no_keplr fresh_mount).2 = Some "Keplr is not available".
Proof.
  split; [reflexivity|].
  exact (connectKeplr_unavailable (P := example_platform) env_no_keplr
           fresh_mount eq_refl).
Defined.

Lemma setupAccount_without_keplr_witness :
  keplr env_no_keplr = None
  ∧ example_setupAccount env_no_keplr fresh_mount = (Ok tt, fresh_mount)
  ∧ trace (example_setupAccount env_no_keplr fresh_mount).2 = trace fresh_mount
  ∧ walletAddress (example_setupAccount env_no_keplr fresh_mount).2 = walletAddress fresh_mount
  ∧ offlineSigner (example_setupAccount env_no_keplr fresh_mount).2 = offlineSigner fresh_mount.
Proof.
  split; [reflexivity|].
  exact (setupAccount_without_keplr (P := example_platform) env_no_keplr fresh_mount eq_refl).
Defined.

Lemma setupAccount_restoration_witness :
  keplr env_keplr_rejects = Some keplr_rejects
  ∧ (example_setupAccount env_keplr_rejects fresh_keplr_mount).1 = Ok tt
  ∧ isLoading (example_setupAccount env_keplr_rejects fresh_keplr_mount).2 = false
  ∧ walletAddress (example_setupAccount env_keplr_rejects fresh_keplr_mount).2 = None
  ∧ offlineSigner (example_setupAccount env_keplr_rejects fresh_keplr_mount).2 = None
  ∧ error (example_setupAccount env_keplr_rejects fresh_keplr_mount).2
    = Some "Request rejected".
Proof.
  split; [reflexivity|].
  pose proof (setupAccount_restoration (P := example_platform) env_keplr_rejects keplr_rejects
                fresh_keplr_mount eq_refl) as (Hok & _ & _ & _ & _ & Hload & Hend).
  split; [exact Hok|]. split; [exact Hload|].
  destruct Hend as (Hw & Hs & _ & He).
  split; [exact Hw|]. split; [exact Hs | exact He].
Defined.

Lemma invalid_handshake_account_witness :
  client_in_use (wc env_pairs_no_algo) = Some no_session
  ∧ wc_connect (wc env_pairs_no_algo) = Ok "peer-1"
  ∧ wc_accounts (wc env_pairs_no_algo) = Ok (Accounts [Some no_algo])
  ∧ invalid_payload (Accounts [Some no_algo]) = true
  ∧ walletAddress (example_connectWalletConnect env_pairs_no_algo fresh_empty_mount).2 = None
  ∧ offlineSigner (example_connectWalletConnect env_pairs_no_algo fresh_empty_mount).2 = None
  ∧ storage (example_connectWalletConnect env_pairs_no_algo fresh_empty_mount).2
      !! KEY_CONNECTED_WALLET_TYPE = None
  ∧ isLoading (example_connectWalletConnect env_pairs_no_algo fresh_empty_mount).2 = false
  ∧ error (example_connectWalletConnect env_pairs_no_algo fresh_empty_mount).2 = None
  ∧ storage (example_connectWalletConnect env_pairs_no_algo fresh_empty_mount).2
    = <[account_key "peer-1" := example_stringify (Some no_algo)]>
        (<[KEY_WALLET_CONNECT := session_blob]> ∅).
Proof.
  do 4 (split; [reflexivity|]).
  exact (invalid_handshake_account (P := example_platform) env_pairs_no_algo no_session
           "peer-1" (Accounts [Some no_algo]) fresh_empty_mount
           eq_refl eq_refl eq_refl eq_refl eq_refl).
Defined.

(** * Where the specification and the code part *)

(** C3 as the specification has it fails.  A start over a store that
    records "keplr", with a provider that rejects [enable]: the restoration
    fails, no session results, and the message of the rejection is the
    [error] the provider shows.  And with [window.keplr] undefined, a
    recorded wallet type is not even read. *)
Lemma startup_failure_is_surfaced :
  keplr_store !! KEY_CONNECTED_WALLET_TYPE = Some "keplr"
  ∧ (example_restoreSession env_keplr_rejects (Some "keplr") (at_try fresh_keplr_mount)).1
    = Throw "Request rejected"
  ∧ walletAddress (example_setupAccount env_keplr_rejects fresh_keplr_mount).2 = None
  ∧ error (example_setupAccount env_keplr_rejects fresh_keplr_mount).2
    = Some "Request rejected"
  ∧ relayed_store !! KEY_CONNECTED_WALLET_TYPE = Some "likerland_app"
  ∧ trace (example_setupAccount env_no_keplr fresh_mount).2 = [].
Proof. repeat split; reflexivity. Qed.

(** C5 as the specification has it fails.  A pairing whose account answer
    lacks [algo]: the connect ends without a session, but the answer is in
    the account cache of the peer and no error is set. *)
Lemma invalid_account_is_cached_silently :
  invalid_payload (Accounts [Some no_algo]) = true
  ∧ walletAddress (example_connectWalletConnect env_pairs_no_algo fresh_empty_mount).2 = None
  ∧ storage (example_connectWalletConnect env_pairs_no_algo fresh_empty_mount).2
      !! account_key "peer-1" = Some (example_stringify (Some no_algo))
  ∧ error (example_connectWalletConnect env_pairs_no_algo fresh_empty_mount).2 = None.
Proof. repeat split; reflexivity. Qed.

(** * Where the code misses what it attempts *)

(** C6 fails on the code.  The store records a relayed session and holds
    the record of the session of "peer-1", without a cached account; the
    relay finds that session live.  The start does not get to the branch
    that removes the orphan record: [initWalletConnect] has killed the
    session before, so the client it goes on with has none, and the start
    sends a pairing request.  Here the request is approved: the attempt ends
    with an active session of the new peer, whose record is in the store. *)
Theorem orphan_session_is_paired_again :
  orphan_store !! KEY_CONNECTED_WALLET_TYPE = Some "likerland_app"
  ∧ orphan_store !! KEY_WALLET_CONNECT = Some session_blob
  ∧ orphan_store !! account_key "peer-1" = None
  ∧ wc_first (wc env_live) = {| connected := true; peerId := "peer-1" |}
  ∧ trace orphan_start
    = [EvGetItem KEY_CONNECTED_WALLET_TYPE;
       EvNewWalletConnect 0; EvKillSession 0;
       EvNewWalletConnect 1; EvOnDisconnect 1; EvConnect 1;
       EvSendCustomRequest 1 (@getAccountsRequest example_platform 1667260800000000);
       EvSetItem (account_key "peer-2") (example_stringify (Some alice));
       EvSetItem KEY_CONNECTED_WALLET_TYPE "likerland_app"]
  ∧ walletAddress orphan_start = Some "cosmos1alice"
  ∧ offlineSigner orphan_start = Some (WalletConnectSigner 1 alice_data)
  ∧ storage orphan_start !! KEY_WALLET_CONNECT = Some new_session_blob.
Proof. repeat split; reflexivity. Qed.

(** C8 fails on the code.  The store holds a valid relayed session (wallet
    type, session record and cached account of "peer-1"), [window.keplr] is
    defined and the relay finds the session live.  The first start kills the
    session and sends a pairing request; the user does not approve it, and
    the start ends without a session, with the rejection as [error] and the
    session record gone.  The second start, over the store the first leaves,
    finds no session and sends a pairing request as well. *)
Theorem restoration_pairs_again :
  keplr env_live_unapproved = Some keplr_ok
  ∧ relayed_store !! KEY_CONNECTED_WALLET_TYPE = Some "likerland_app"
  ∧ relayed_store !! KEY_WALLET_CONNECT = Some session_blob
  ∧ (relayed_store !! account_key "peer-1") ≫= example_parse = Some (Some alice)
  ∧ valid_account (Some alice) = true
  ∧ wc_first (wc env_live_unapproved) = {| connected := true; peerId := "peer-1" |}
  ∧ trace first_start
    = [EvGetItem KEY_CONNECTED_WALLET_TYPE;
       EvNewWalletConnect 0; EvKillSession 0;
       EvNewWalletConnect 1; EvOnDisconnect 1; EvConnect 1]
  ∧ walletAddress first_start = None
  ∧ offlineSigner first_start = None
  ∧ error first_start = Some "User close QRCode Modal"
  ∧ storage first_start !! KEY_WALLET_CONNECT = None
  ∧ trace second_start
    = [EvGetItem KEY_CONNECTED_WALLET_TYPE;
       EvNewWalletConnect 0; EvOnDisconnect 0; EvConnect 0]
  ∧ walletAddress second_start = None.
Proof. repeat split; reflexivity. Qed.

(** * The further properties at the example inputs *)

Lemma bob_address_not_empty : address bob_data ≠ "".
Proof. discriminate. Defined.

Lemma connectKeplr_connects_witness :
  keplr env_live = Some keplr_ok
  ∧ kp_accounts keplr_ok = Ok [bob_data]
  ∧ walletAddress (example_connectKeplr env_live fresh_empty_mount).2 = Some "cosmos1bob"
  ∧ offlineSigner (example_connectKeplr env_live fresh_empty_mount).2
    = Some (KeplrSigner example_chain)
  ∧ storage (example_connectKeplr env_live fresh_empty_mount).2
    = <[KEY_CONNECTED_WALLET_TYPE := "keplr"]> ∅
  ∧ isLoading (example_connectKeplr env_live fresh_empty_mount).2 = false
  ∧ error (example_connectKeplr env_live fresh_empty_mount).2 = None
  ∧ trace (example_connectKeplr env_live fresh_empty_mount).2
    = [EvSuggestChain mainnet; EvKeplrEnable example_chain;
       EvGetOfflineSignerAuto example_chain; EvKeplrGetAccounts;
       EvSetItem KEY_CONNECTED_WALLET_TYPE "keplr"].
Proof.
  do 2 (split; [reflexivity|]).
  exact (connectKeplr_connects (P := example_platform) env_live keplr_ok bob_data []
           fresh_empty_mount eq_refl eq_refl eq_refl eq_refl bob_address_not_empty).
Defined.

Lemma connectKeplr_enable_rejected_witness :
  keplr env_keplr_rejects = Some keplr_rejects
  ∧ kp_enable keplr_rejects = Some "Request rejected"
  ∧ walletAddress (example_connectKeplr env_keplr_rejects fresh_empty_mount).2 = None
  ∧ offlineSigner (example_connectKeplr env_keplr_rejects fresh_empty_mount).2 = None
  ∧ storage (example_connectKeplr env_keplr_rejects fresh_empty_mount).2 = ∅
  ∧ isLoading (example_connectKeplr env_keplr_rejects fresh_empty_mount).2 = false
  ∧ error (example_connectKeplr env_keplr_rejects fresh_empty_mount).2
    = Some "Request rejected"
  ∧ trace (example_connectKeplr env_keplr_rejects fresh_empty_mount).2
    = [EvSuggestChain mainnet; EvKeplrEnable example_chain].
Proof.
  do 2 (split; [reflexivity|]).
  exact (connectKeplr_enable_rejected (P := example_platform) env_keplr_rejects keplr_rejects
           "Request rejected" fresh_empty_mount eq_refl eq_refl).
Defined.

Lemma connectKeplr_no_account_witness :
  keplr env_keplr_empty = Some keplr_empty
  ∧ kp_accounts keplr_empty = Ok []
  ∧ walletAddress (example_connectKeplr env_keplr_empty fresh_empty_mount).2 = None
  ∧ offlineSigner (example_connectKeplr env_keplr_empty fresh_empty_mount).2 = None
  ∧ storage (example_connectKeplr env_keplr_empty fresh_empty_mount).2 = ∅
  ∧ isLoading (example_connectKeplr env_keplr_empty fresh_empty_mount).2 = false
  ∧ error (example_connectKeplr env_keplr_empty fresh_empty_mount).2
    = Some "TypeError: Cannot destructure property 'address' of undefined".
Proof.
  do 2 (split; [reflexivity|]).
  exact (connectKeplr_no_account (P := example_platform) env_keplr_empty keplr_empty []
           fresh_empty_mount eq_refl eq_refl eq_refl eq_refl (or_introl eq_refl)).
Defined.

Lemma keystoreChange_updates_address_witness :
  storage fresh_keplr_mount !! KEY_CONNECTED_WALLET_TYPE = Some "keplr"
  ∧ keplr env_live = Some keplr_ok
  ∧ walletAddress (example_keystoreChangeHandler env_live fresh_keplr_mount).2
    = Some "cosmos1bob"
  ∧ offlineSigner (example_keystoreChangeHandler env_live fresh_keplr_mount).2
    = Some (KeplrSigner example_chain)
  ∧ storage (example_keystoreChangeHandler env_live fresh_keplr_mount).2 = keplr_store
  ∧ isLoading (example_keystoreChangeHandler env_live fresh_keplr_mount).2 = false
  ∧ error (example_keystoreChangeHandler env_live fresh_keplr_mount).2 = None.
Proof.
  do 2 (split; [reflexivity|]).
  exact (keystoreChange_updates_address (P := example_platform) env_live keplr_ok bob_data []
           fresh_keplr_mount eq_refl eq_refl eq_refl eq_refl eq_refl bob_address_not_empty).
Defined.

Lemma rejected_enable_is_no_success :
  (@initKepr example_platform (keplr env_keplr_rejects) at_keystore_change).1 ≠ Ok true.
Proof. vm_compute. discriminate. Defined.

Lemma keystoreChange_failure_is_silent_witness :
  (@initKepr example_platform (keplr env_keplr_rejects) at_keystore_change).1 ≠ Ok true
  ∧ (example_keystoreChangeHandler env_keplr_rejects fresh_keplr_mount).1 = Ok tt
  ∧ unchanged_session fresh_keplr_mount
      (example_keystoreChangeHandler env_keplr_rejects fresh_keplr_mount).2.
Proof.
  split; [exact rejected_enable_is_no_success|].
  exact (keystoreChange_failure_is_silent (P := example_platform) env_keplr_rejects
           fresh_keplr_mount rejected_enable_is_no_success).
Defined.

Lemma connected_keplr_reachable : @reachable example_platform connected_keplr.
Proof. apply reachable_step, reachable_initial. Defined.

Lemma reachable_signer_matches_address_witness :
  @reachable example_platform connected_keplr
  ∧ signer_matches_address connected_keplr.
Proof.
  split; [exact connected_keplr_reachable|].
  exact (reachable_signer_matches_address (P := example_platform) connected_keplr
           connected_keplr_reachable).
Defined.


Lemma reachable_not_loading_witness :
  @reachable example_platform connected_keplr ∧ isLoading connected_keplr = false.
Proof.
  split; [exact connected_keplr_reachable|].
  exact (reachable_not_loading (P := example_platform) connected_keplr
           connected_keplr_reachable).
Defined.

Lemma connectWalletConnect_pairs_witness :
  client_in_use (wc env_pairs) = Some no_session
  ∧ wc_connect (wc env_pairs) = Ok "peer-1"
  ∧ wc_accounts (wc env_pairs) = Ok (Accounts [Some alice])
  ∧ valid_account (Some alice) = true
  ∧ ∃ c evs,
      walletAddress mounted_relayed = Some "cosmos1alice"
      ∧ offlineSigner mounted_relayed = Some (@signer_of example_platform c (Some alice))
      ∧ conns mounted_relayed !! c = Some {| connected := true; peerId := "peer-1" |}
      ∧ storage mounted_relayed
        = <[KEY_CONNECTED_WALLET_TYPE := "likerland_app"]>
            (<[account_key "peer-1" := example_stringify (Some alice)]>
               (<[KEY_WALLET_CONNECT := session_blob]> ∅))
      ∧ isLoading mounted_relayed = false
      ∧ error mounted_relayed = None
      ∧ trace mounted_relayed
        = [] ++ evs
          ++ [EvConnect c;
              EvSendCustomRequest c
                {| id := 1667260800000000; jsonrpc := "2.0";
                   method := "cosmos_getAccounts"; params := [PString example_chain] |};
              EvSetItem (account_key "peer-1") (example_stringify (Some alice));
              EvSetItem KEY_CONNECTED_WALLET_TYPE "likerland_app"]
      ∧ Forall (λ ev, is_connect ev = false) evs.
Proof.
  do 4 (split; [reflexivity|]).
  exact (connectWalletConnect_pairs (P := example_platform) env_pairs no_session "peer-1"
           [Some alice] fresh_empty_mount eq_refl eq_refl eq_refl eq_refl).
Defined.

Lemma connectWalletConnect_pairing_rejected_witness :
  client_in_use (wc env_live_unapproved) = Some no_session
  ∧ wc_connect (wc env_live_unapproved) = Throw "User close QRCode Modal"
  ∧ walletAddress (example_connectWalletConnect env_live_unapproved fresh_mount).2 = None
  ∧ offlineSigner (example_connectWalletConnect env_live_unapproved fresh_mount).2 = None
  ∧ storage (example_connectWalletConnect env_live_unapproved fresh_mount).2
    = delete KEY_WALLET_CONNECT relayed_store
  ∧ isLoading (example_connectWalletConnect env_live_unapproved fresh_mount).2 = false
  ∧ error (example_connectWalletConnect env_live_unapproved fresh_mount).2
    = Some "User close QRCode Modal"
  ∧ payloads (example_connectWalletConnect env_live_unapproved fresh_mount).2 = 0
  ∧ ∃ c evs,
      trace (example_connectWalletConnect env_live_unapproved fresh_mount).2
      = [] ++ evs ++ [EvConnect c]
      ∧ Forall (λ ev, is_connect ev = false) evs.
Proof.
  do 2 (split; [reflexivity|]).
  exact (connectWalletConnect_pairing_rejected (P := example_platform) env_live_unapproved
           no_session "User close QRCode Modal" fresh_mount eq_refl eq_refl).
Defined.

Lemma disconnect_after_replaced_client_witness :
  connected (wc_first (wc env_live)) = true
  ∧ wc_kill (wc env_live) = None
  ∧ connector replaced_relayed = Some 0
  ∧ conns replaced_relayed !! 0 = Some {| connected := false; peerId := "" |}
  ∧ signer_on 1 fresh_mount replaced_relayed
  ∧ Forall (λ ev, is_kill ev = false)
      (drop (length (trace replaced_relayed))
         (trace (example_disconnect (connector replaced_relayed) replaced_relayed).2))
  ∧ connector (example_disconnect (connector replaced_relayed) replaced_relayed).2 = Some 0.
Proof.
  do 2 (split; [reflexivity|]).
  exact (disconnect_after_replaced_client (P := example_platform) env_live fresh_mount
           eq_refl eq_refl).
Defined.

Lemma color_mode_is_not_the_wallet_type : KEY_COLOR_MODE ≠ KEY_CONNECTED_WALLET_TYPE.
Proof. discriminate. Defined.

Lemma color_mode_is_not_the_session : KEY_COLOR_MODE ≠ KEY_WALLET_CONNECT.
Proof. discriminate. Defined.

Lemma provider_keeps_foreign_keys_witness :
  is_account_key KEY_COLOR_MODE = false
  ∧ storage (example_run_op OpDisconnect env_live fresh_dark_mount) !! KEY_COLOR_MODE
    = Some "dark".
Proof.
  split; [reflexivity|].
  exact (provider_keeps_foreign_keys (P := example_platform) OpDisconnect env_live
           fresh_dark_mount KEY_COLOR_MODE eq_refl
           color_mode_is_not_the_wallet_type color_mode_is_not_the_session).
Defined.

Lemma mounted_screen_reachable : screen_reachable mounted_screen.
Proof.
  apply (screen_reachable_step (OpFocus "rocq")),
    (screen_reachable_step (OpFetch "rocq" None true)), screen_reachable_initial.
Defined.

Lemma mounted_screen_waits : waiting mounted_screen ≠ [].
Proof. discriminate. Defined.

Lemma one_fetch_at_a_time_witness :
  screen_reachable mounted_screen
  ∧ length (waiting mounted_screen) ≤ 1
  ∧ (waiting mounted_screen ≠ [] →
     isLoadingMore mounted_screen = true
     ∧ screen_step (OpFetch "rocq" (Some "world") false) mounted_screen = mounted_screen).
Proof.
  split; [exact mounted_screen_reachable|].
  exact (one_fetch_at_a_time mounted_screen "rocq" (Some "world") false
           mounted_screen_reachable).
Defined.

Lemma rejected_fetch_blocks_witness :
  screen_reachable mounted_screen
  ∧ waiting mounted_screen ≠ []
  ∧ requests (screen_run after_rejection (screen_step OpReject mounted_screen))
    = [("rocq", None)]
  ∧ isLoadingMore (screen_run after_rejection (screen_step OpReject mounted_screen)) = true
  ∧ waiting (screen_run after_rejection (screen_step OpReject mounted_screen)) = [].
Proof.
  split; [exact mounted_screen_reachable|]. split; [exact mounted_screen_waits|].
  exact (rejected_fetch_blocks mounted_screen after_rejection
           mounted_screen_reachable mounted_screen_waits).
Defined.

Lemma at_the_end_stays : Forall (λ op, leaves (channelName mounted_screen) op = false) at_the_end.
Proof. repeat constructor. Defined.

Lemma end_of_list_is_final_witness :
  screen_reachable mounted_screen
  ∧ waiting mounted_screen ≠ []
  ∧ hasMore last_page = false
  ∧ isListReachedEnd (screen_step (OpResolve last_page) mounted_screen) = true
  ∧ isLoadingMore (screen_step (OpResolve last_page) mounted_screen) = false
  ∧ screen_run at_the_end (screen_step (OpResolve last_page) mounted_screen)
    = screen_step (OpResolve last_page) mounted_screen.
Proof.
  split; [exact mounted_screen_reachable|]. split; [exact mounted_screen_waits|].
  split; [reflexivity|].
  exact (end_of_list_is_final mounted_screen last_page at_the_end
           mounted_screen_reachable mounted_screen_waits eq_refl at_the_end_stays).
Defined.

Lemma pages_append_witness :
  isLoadingMore listed_screen = false
  ∧ isListReachedEnd listed_screen = false
  ∧ waiting listed_screen = []
  ∧ messages (foldl (load_page "rocq") listed_screen more_pages)
    = ["hello"; "world"] ++ ["again"; "more"; "texts"]
  ∧ requests (foldl (load_page "rocq") listed_screen more_pages)
    = [("rocq", None)] ++ [("rocq", Some "world"); ("rocq", Some "again")].
Proof.
  do 3 (split; [reflexivity|]).
  exact (pages_append "rocq" listed_screen more_pages eq_refl eq_refl eq_refl).
Defined.

Lemma mounted_screen_elsewhere : channelName mounted_screen ≠ Some "coq".
Proof. discriminate. Defined.

Lemma switch_while_loading_witness :
  screen_reachable mounted_screen
  ∧ waiting mounted_screen = [mounted_fetch]
  ∧ channelName mounted_screen ≠ Some "coq"
  ∧ channelName (screen_step (OpResolve first_page) (screen_step (OpFocus "coq") mounted_screen))
    = Some "coq"
  ∧ requests (screen_step (OpResolve first_page) (screen_step (OpFocus "coq") mounted_screen))
    = [("rocq", None)]
  ∧ waiting (screen_step (OpResolve first_page) (screen_step (OpFocus "coq") mounted_screen))
    = []
  ∧ messages (screen_step (OpResolve first_page) (screen_step (OpFocus "coq") mounted_screen))
    = ["hello"; "world"].
Proof.
  split; [exact mounted_screen_reachable|]. split; [reflexivity|].
  split; [exact mounted_screen_elsewhere|].
  exact (switch_while_loading mounted_screen mounted_fetch "coq" first_page
           mounted_screen_reachable eq_refl mounted_screen_elsewhere).
Defined.

Lemma handleOnSubmit_without_signer_witness :
  offlineSigner fresh_empty_mount = None
  ∧ Forall (λ ev, is_post ev = false ∧ is_redirect ev = false ∧ ev ≠ ShowLoading)
      (example_handleOnSubmit fresh_empty_mount None example_submit "gm" (Some "data:,gm"))
  ∧ ∃ alertTitle,
      last (example_handleOnSubmit fresh_empty_mount None example_submit "gm" (Some "data:,gm"))
      = Some (AlertShow alertTitle status_error).
Proof.
  split; [reflexivity|].
  exact (handleOnSubmit_without_signer (P := example_platform) fresh_empty_mount None
           example_submit "gm" (Some "data:,gm") eq_refl).
Defined.

Lemma composer_has_signer_witness :
  @reachable example_platform connected_keplr
  ∧ isLoggedIn connected_keplr = true
  ∧ ∃ signer,
      offlineSigner connected_keplr = Some signer
      ∧ is_Some (userHandle no_likecoin None connected_keplr)
      ∧ PostMessage signer "gm" None
          ∈ example_handleOnSubmit connected_keplr
              (userHandle no_likecoin None connected_keplr) example_submit "gm" None.
Proof.
  split; [exact connected_keplr_reachable|]. split; [reflexivity|].
  exact (composer_has_signer (P := example_platform) connected_keplr no_likecoin None
           example_submit "gm" connected_keplr_reachable eq_refl).
Defined.
